(** * Seating designer: plan model, geometry, CSV export and version store

    A shallow embedding of the seating designer's page component
    ([client/src/pages/seating-designer.tsx]) and of the server's version
    store ([server/versionsStorage.ts], [server/routes.ts]).

    Conventions of the embedding:
    - a JS [string] is a [string]; an optional field [f?: T] is an [option T];
    - array indices and lengths are [nat]; an integer-valued [number]
      (table number, requested chair count) is a [Z];
    - a real-valued [number] (coordinates, rotation, chair offsets) is an [R]:
      rounding of IEEE doubles is not modelled;
    - a React state update [setTables(prev => f(prev))] is the function [f];
    - [uid] draws on [Math.random] and [Date.now]: the two are oracles indexed
      by the number of calls made so far, threaded through the [Gen] monad. *)

From Stdlib Require Import Reals Lra.
From stdpp Require Import base decidable option list sorting gmap strings pretty.

Set Warnings "-register-all".

(** ** Data model *)

Inductive GuestGender := female | male.

Record Guest := {
  guest_id : string;
  guest_name : string;
  guest_gender : GuestGender;
  guest_photoUrl : option string;
}.

Record Chair := {
  chair_id : string;
  chair_guestId : option string;
}.

Inductive TableShape := round | rect.

Inductive TableNumberStyle := classic | monogram | modern.

(** [TableModel]; [number] is taken over the integers. *)
Record TableModel := {
  table_id : string;
  table_number : Z;
  table_label : option string;
  table_shape : TableShape;
  table_numberStyle : TableNumberStyle;
  table_isVip : option bool;
  table_x : R;
  table_y : R;
  table_rotation : R;
  table_chairs : list Chair;
}.

Global Instance GuestGender_eq_dec : EqDecision GuestGender.
Proof. solve_decision. Defined.

Global Instance Guest_eq_dec : EqDecision Guest.
Proof. solve_decision. Defined.

Global Instance Chair_eq_dec : EqDecision Chair.
Proof. solve_decision. Defined.

(** [{ ...t, chairs }] *)
Definition with_chairs (t : TableModel) (chairs : list Chair) : TableModel :=
  {| table_id := table_id t;
     table_number := table_number t;
     table_label := table_label t;
     table_shape := table_shape t;
     table_numberStyle := table_numberStyle t;
     table_isVip := table_isVip t;
     table_x := table_x t;
     table_y := table_y t;
     table_rotation := table_rotation t;
     table_chairs := chairs |}.

(** [{ ...t, rotation }] *)
Definition with_rotation (t : TableModel) (rotation : R) : TableModel :=
  {| table_id := table_id t;
     table_number := table_number t;
     table_label := table_label t;
     table_shape := table_shape t;
     table_numberStyle := table_numberStyle t;
     table_isVip := table_isVip t;
     table_x := table_x t;
     table_y := table_y t;
     table_rotation := rotation;
     table_chairs := table_chairs t |}.

(** [{ ...c, guestId }] *)
Definition with_guestId (c : Chair) (guestId : option string) : Chair :=
  {| chair_id := chair_id c; chair_guestId := guestId |}.

(** The plan data held by the page: [guests] and [tables]. *)
Record Plan := {
  guests : list Guest;
  tables : list TableModel;
}.

(** JS truthiness of an optional string: [undefined] and the empty string are
    falsy. *)
Definition truthy (o : option string) : bool :=
  match o with
  | Some s => negb (String.eqb s EmptyString)
  | None => false
  end.

(** [clamp(n, min, max) = Math.max(min, Math.min(max, n))] *)
Definition clamp (n lo hi : Z) : Z := Z.max lo (Z.min hi n).

(** ** Identifier generation *)

(** A computation that may call [uid]: it receives the number of calls made
    so far and returns the new count with its result. *)
Definition Gen (A : Type) : Type := nat -> A * nat.

Definition gret {A} (a : A) : Gen A := fun k => (a, k).

Definition gbind {A B} (m : Gen A) (f : A -> Gen B) : Gen B :=
  fun k => let '(a, k1) := m k in f a k1.

Notation "'do' x <- m ; f" := (gbind m (fun x => f))
  (at level 10, x name, m at level 100, f at level 200).

(** [prev.map(f)] where [f] may call [uid]. *)
Fixpoint gmapM {A B} (f : A -> Gen B) (l : list A) : Gen (list B) :=
  match l with
  | [] => gret []
  | x :: r => do y <- f x; do ys <- gmapM f r; gret (y :: ys)
  end.

Section Mutators.

(** [Math.random().toString(16).slice(2)] and [Date.now().toString(16)] at
    the k-th call of [uid]. *)
Variable random_hex : nat -> string.
Variable now_hex : nat -> string.

(** [uid(prefix)]: [`${prefix}_${random}_${now}`] *)
Definition uid (prefix : string) : Gen string :=
  fun k => (prefix +:+ "_" +:+ random_hex k +:+ "_" +:+ now_hex k, S k).

(** [Array.from({ length: n }).map((_, i) => ({ id: uid(`${tid}c${len + i + 1}`) }))] *)
Definition fresh_chairs (tid : string) (len n : nat) : Gen (list Chair) :=
  gmapM (fun i => do id <- uid (tid +:+ "c" +:+ pretty (len + i + 1)%nat);
                  gret {| chair_id := id; chair_guestId := None |})
        (seq 0 n).

(** The body of the [prev.map] of [setChairsCount]. *)
Definition setChairsCount_table (tableId : string) (count : Z)
    (t : TableModel) : Gen TableModel :=
  if negb (bool_decide (table_id t = tableId)) then gret t
  else
    let next := clamp count 2 20 in
    let existing := table_chairs t in
    if bool_decide (Z.of_nat (length existing) = next) then gret t
    else if bool_decide (Z.of_nat (length existing) < next)%Z then
      do add <- fresh_chairs (table_id t) (length existing)
                  (Z.to_nat (next - Z.of_nat (length existing)));
      gret (with_chairs t (existing ++ add))
    else
      let trimmed := take (Z.to_nat next) existing in
      gret (with_chairs t trimmed).

(** [setChairsCount(tableId, count)] *)
Definition setChairsCount (tableId : string) (count : Z)
    (prev : list TableModel) : Gen (list TableModel) :=
  gmapM (setChairsCount_table tableId count) prev.

(** The plan after [setChairsCount(tableId, count)]: only [tables] is set. *)
Definition plan_setChairsCount (tableId : string) (count : Z) (p : Plan)
    : Gen Plan :=
  do next <- setChairsCount tableId count (tables p);
  gret {| guests := guests p; tables := next |}.

End Mutators.

(** [assignGuest(tableId, chairId, guestId?)] *)
Definition assignGuest (tableId chairId : string) (guestId : option string)
    (prev : list TableModel) : list TableModel :=
  (fun t =>
     if negb (bool_decide (table_id t = tableId)) then t
     else with_chairs t
            ((fun c => if bool_decide (chair_id c = chairId)
                       then with_guestId c guestId else c) <$> table_chairs t))
  <$> prev.

(** [unassignGuestEverywhere(guestId)] *)
Definition unassignGuestEverywhere (guestId : string)
    (prev : list TableModel) : list TableModel :=
  (fun t =>
     with_chairs t
       ((fun c => if bool_decide (chair_guestId c = Some guestId)
                  then with_guestId c None else c) <$> table_chairs t))
  <$> prev.

(** [removeGuest(guestId)]: both state updates of the handler. *)
Definition removeGuest (guestId : string) (p : Plan) : Plan :=
  {| tables := unassignGuestEverywhere guestId (tables p);
     guests := filter (fun g => guest_id g <> guestId) (guests p) |}.

(** [unassignedGuests]: the guests whose id is not in the set of truthy
    [guestId]s of the chairs. *)
Definition assigned (ts : list TableModel) : gset string :=
  foldl (fun acc t =>
           foldl (fun acc c =>
                    if truthy (chair_guestId c)
                    then match chair_guestId c with
                         | Some g => {[ g ]} ∪ acc
                         | None => acc
                         end
                    else acc)
                 acc (table_chairs t))
        ∅ ts.

Definition unassignedGuests (p : Plan) : list Guest :=
  filter (fun g => guest_id g ∉ assigned (tables p)) (guests p).

(** The guests the seat popover offers, [unassignedGuests.slice(0, 6)]: the
    button of a guest [g] on the chair [c] of the table [t] calls
    [assignGuest(t.id, c.id, g.id)]. *)
Definition popover_guests (p : Plan) : list Guest :=
  take 6 (unassignedGuests p).

(** The guests shown as draggable cards, [unassignedGuests.slice(0, 8)]: a
    card dropped on a seat without a guest calls [assignGuest] with the id of
    its guest. *)
Definition card_guests (p : Plan) : list Guest :=
  take 8 (unassignedGuests p).

(** [nextTableNumber]: [Math.max(0, ...tables.map((t) => t.number)) + 1].
    The code computes on doubles; on integers the sum is exact as long as the
    largest number is below 2^53, which the properties of the new number
    assume. *)
Definition nextTableNumber (ts : list TableModel) : Z :=
  (foldl (fun m t => Z.max m (table_number t)) 0 ts + 1)%Z.

(** [[...tables].sort((a, b) => a.number - b.number)]: the sort of the
    engine is stable, so the result is the stable sort by [number]; it is
    computed here by insertion, each table going before the first one with a
    number not below its own. *)
Fixpoint insert_by_number (t : TableModel) (l : list TableModel) : list TableModel :=
  match l with
  | [] => [t]
  | u :: r =>
      if bool_decide (table_number u < table_number t)%Z
      then u :: insert_by_number t r
      else t :: u :: r
  end.

Definition sort_by_number (ts : list TableModel) : list TableModel :=
  foldr insert_by_number [] ts.

(** An element of [seats] and of [guestsByTable]. *)
Record Seat := {
  seat_chairId : string;
  seat_seatNumber : nat;
  seat_guest : option Guest;
}.

Record TableSeats := {
  ts_tableId : string;
  ts_tableNumber : Z;
  ts_shape : TableShape;
  ts_isVip : bool;
  ts_seats : list Seat;
}.

(** [c.guestId ? guests.find((g) => g.id === c.guestId) : undefined] *)
Definition resolve_guest (gs : list Guest) (c : Chair) : option Guest :=
  if truthy (chair_guestId c)
  then snd <$> list_find (fun g => Some (guest_id g) = chair_guestId c) gs
  else None.

(** [guestsByTable] *)
Definition guestsByTable (p : Plan) : list TableSeats :=
  (fun t =>
     {| ts_tableId := table_id t;
        ts_tableNumber := table_number t;
        ts_shape := table_shape t;
        ts_isVip := default false (table_isVip t);
        ts_seats :=
          imap (fun i c =>
                  {| seat_chairId := chair_id c;
                     seat_seatNumber := i + 1;
                     seat_guest := resolve_guest (guests p) c |})
               (table_chairs t) |})
  <$> sort_by_number (tables p).

(** ** CSV export *)

Definition dquote : Ascii.ascii := Ascii.ascii_of_nat 34.
Definition comma : Ascii.ascii := Ascii.ascii_of_nat 44.
Definition cr : Ascii.ascii := Ascii.ascii_of_nat 13.
Definition lf : Ascii.ascii := Ascii.ascii_of_nat 10.

(** The character class of the test of [escapeCsvCell]: quote, comma, CR, LF. *)
Definition csv_special (a : Ascii.ascii) : bool :=
  Ascii.eqb a dquote || Ascii.eqb a comma || Ascii.eqb a cr || Ascii.eqb a lf.

(** The regular expression test: some character of the class occurs. *)
Fixpoint csv_test (value : string) : bool :=
  match value with
  | EmptyString => false
  | String a r => csv_special a || csv_test r
  end.

(** The [replace] of [escapeCsvCell]: every quote character is doubled. *)
Fixpoint double_quotes (value : string) : string :=
  match value with
  | EmptyString => EmptyString
  | String a r =>
      if Ascii.eqb a dquote
      then String dquote (String dquote (double_quotes r))
      else String a (double_quotes r)
  end.

(** [escapeCsvCell(value)] *)
Definition escapeCsvCell (value : string) : string :=
  if csv_test value
  then String dquote (double_quotes value +:+ String dquote EmptyString)
  else value.

Definition gender_string (g : GuestGender) : string :=
  match g with female => "female" | male => "male" end.

Definition csv_headers : list string :=
  ["Table Number"; "VIP"; "Seat"; "Guest Name"; "Gender"].

(** The row pushed for one seat. [String(tableNumber)] is the decimal
    numeral of an integer below 10^21 in absolute value, as [pretty] writes
    it; from 10^21 the code writes the exponent form. *)
Definition seat_row (tableNumber : Z) (isVip : bool) (s : Seat) : list string :=
  [ pretty tableNumber;
    (if isVip then "Yes" else EmptyString);
    pretty (seat_seatNumber s);
    from_option guest_name EmptyString (seat_guest s);
    from_option (fun g => gender_string (guest_gender g)) EmptyString (seat_guest s) ].

(** The row pushed for one unassigned guest. *)
Definition unassigned_row (g : Guest) : list string :=
  [ EmptyString; EmptyString; EmptyString; guest_name g; gender_string (guest_gender g) ].

(** [rows] of [exportToCsv], once both [forEach] loops have run. *)
Definition csv_rows (p : Plan) : list (list string) :=
  csv_headers
  :: (guestsByTable p ≫= fun tb =>
        seat_row (ts_tableNumber tb) (ts_isVip tb) <$> ts_seats tb)
  ++ (unassigned_row <$> unassignedGuests p).

(** [Array.prototype.join] *)
Fixpoint join (sep : string) (l : list string) : string :=
  match l with
  | [] => EmptyString
  | [s] => s
  | s :: r => s +:+ sep +:+ join sep r
  end.

Definition crlf : string := String cr (String lf EmptyString).

(** The text of the file written by [exportToCsv]. *)
Definition exportToCsv (p : Plan) : string :=
  join crlf ((fun row => join "," (escapeCsvCell <$> row)) <$> csv_rows p).

(** ** Chair geometry *)

Section Geometry.
Local Open Scope R_scope.

(** The offset computed by [ChairDot], in the frame of the table element. *)
Definition ChairDot (index total : nat) (radius rotation : R) : R * R :=
  let angle := PI * 2 / INR total * INR index + rotation in
  let x := cos angle * radius in
  let y := sin angle * radius in
  (x, y).

(** [Math.ceil(total / 4)] for an array length [total]. *)
Definition perSide_of (total : nat) : nat := ((total + 3) / 4)%nat.

(** [Math.floor(index / perSide)] *)
Definition side_of (index total : nat) : nat := (index / perSide_of total)%nat.

(** [index % perSide] *)
Definition posOnSide_of (index total : nat) : nat :=
  (index mod perSide_of total)%nat.

(** [perSide <= 1 ? 0.5 : posOnSide / (perSide - 1)] *)
Definition t_of (index total : nat) : R :=
  if (perSide_of total <=? 1)%nat then 0.5
  else INR (posOnSide_of index total) / (INR (perSide_of total) - 1).

(** The offset computed by [ChairRect]. *)
Definition ChairRect (index total : nat) (w h : R) : R * R :=
  let side := side_of index total in
  let t := t_of index total in
  if (side =? 0)%nat then (- w / 2 + t * w, - h / 2)
  else if (side =? 1)%nat then (w / 2, - h / 2 + t * h)
  else if (side =? 2)%nat then (- w / 2 + t * w, h / 2)
  else (- w / 2, - h / 2 + t * h).

(** [tableSize] and [chairRadius] of the render loop. *)
Definition tableSize (s : TableShape) : R * R :=
  match s with rect => (126, 74) | round => (98, 98) end.

Definition chairRadius (s : TableShape) : R :=
  match s with rect => 80 | round => 70 end.

(** The decorative chair of index [i]: [ChairRect] for a rectangular table,
    [ChairDot] otherwise. *)
Definition chair_decoration (t : TableModel) (i : nat) : R * R :=
  match table_shape t with
  | rect => ChairRect i (length (table_chairs t)) 126 74
  | round =>
      ChairDot i (length (table_chairs t)) (chairRadius (table_shape t))
        (table_rotation t)
  end.

(** [(seatX, seatY)] of the interactive seat marker of index [i]. *)
Definition seat_marker (t : TableModel) (i : nat) : R * R :=
  let total := length (table_chairs t) in
  let angle :=
    match table_shape t with
    | round => PI * 2 / INR total * INR i + table_rotation t
    | rect => 0
    end in
  let r :=
    match table_shape t with
    | round => chairRadius (table_shape t)
    | rect => 0
    end in
  match table_shape t with
  | round => (cos angle * r, sin angle * r)
  | rect =>
      let side := side_of i total in
      let tt := t_of i total in
      let w := 126 in
      let h := 74 in
      if (side =? 0)%nat then (- w / 2 + tt * w, - h / 2 - 18)
      else if (side =? 1)%nat then (w / 2 + 18, - h / 2 + tt * h)
      else if (side =? 2)%nat then (- w / 2 + tt * w, h / 2 + 18)
      else (- w / 2 - 18, - h / 2 + tt * h)
  end.

(** [Math.round(x)]: the integer [floor (x + 1/2)]. *)
Definition Math_round (x : R) : R := IZR (Int_part (x + / 2)).

Definition gridSize : R := 24.

(** [snap(n)] under the [snapToGrid] switch. *)
Definition snap (snapToGrid : bool) (n : R) : R :=
  if negb snapToGrid then n else Math_round (n / gridSize) * gridSize.

End Geometry.

(** ** Table mutators that create or delete tables *)

Section TableMutators.

Variable random_hex : nat -> string.
Variable now_hex : nat -> string.

(** [duplicateTable(tableId)] *)
Definition duplicateTable (snapToGrid : bool) (tableId : string)
    (ts : list TableModel) : Gen (list TableModel) :=
  match list_find (fun x => table_id x = tableId) ts with
  | None => gret ts
  | Some (_, t) =>
      do id <- uid random_hex now_hex "t";
      let copied :=
        {| table_id := id;
           table_number := nextTableNumber ts;
           table_label := table_label t;
           table_shape := table_shape t;
           table_numberStyle := table_numberStyle t;
           table_isVip := Some (default false (table_isVip t));
           table_x := snap snapToGrid (table_x t + 40);
           table_y := snap snapToGrid (table_y t + 40);
           table_rotation := table_rotation t;
           table_chairs :=
             imap (fun i c =>
                     {| chair_id := id +:+ "c" +:+ pretty (i + 1);
                        chair_guestId := chair_guestId c |})
                  (table_chairs t) |} in
      gret (ts ++ [copied])
  end.

(** [deleteTable(tableId)] *)
Definition deleteTable (tableId : string) (prev : list TableModel) : list TableModel :=
  filter (fun t => table_id t <> tableId) prev.

End TableMutators.

(** ** The initial plan *)

Definition mkGuest (id name : string) (gender : GuestGender) : Guest :=
  {| guest_id := id; guest_name := name; guest_gender := gender;
     guest_photoUrl := None |}.

Definition defaultGuests : list Guest :=
  [ mkGuest "g1" "Ava Johnson" female;
    mkGuest "g2" "Noah Williams" male;
    mkGuest "g3" "Sophia Brown" female;
    mkGuest "g4" "Liam Jones" male;
    mkGuest "g5" "Isabella Davis" female;
    mkGuest "g6" "Ethan Miller" male;
    mkGuest "g7" "Mia Wilson" female;
    mkGuest "g8" "Lucas Moore" male;
    mkGuest "g9" "Amelia Taylor" female;
    mkGuest "g10" "Benjamin Anderson" male ].

(** [Array.from({ length: n }).map((_, i) =>
      ({ id: `${tid}c${i + 1}`, guestId: i < k ? `g${i + off}` : undefined }))] *)
Definition default_chairs (tid : string) (n k off : nat) : list Chair :=
  (fun i =>
     {| chair_id := tid +:+ "c" +:+ pretty (i + 1);
        chair_guestId :=
          if bool_decide (i < k) then Some ("g" +:+ pretty (i + off)) else None |})
  <$> seq 0 n.

Definition defaultTable1 : TableModel :=
  {| table_id := "t1"; table_number := 1; table_label := None;
     table_shape := round; table_numberStyle := classic;
     table_isVip := Some true;
     table_x := 240; table_y := 210; table_rotation := 0;
     table_chairs := default_chairs "t1" 8 4 1 |}.

Definition defaultTable2 : TableModel :=
  {| table_id := "t2"; table_number := 2; table_label := None;
     table_shape := round; table_numberStyle := monogram;
     table_isVip := Some false;
     table_x := 520; table_y := 260; table_rotation := 0.2;
     table_chairs := default_chairs "t2" 10 3 5 |}.

Definition defaultTable3 : TableModel :=
  {| table_id := "t3"; table_number := 3; table_label := None;
     table_shape := rect; table_numberStyle := modern;
     table_isVip := Some false;
     table_x := 350; table_y := 430; table_rotation := 0;
     table_chairs := default_chairs "t3" 12 3 8 |}.

Definition defaultTables : list TableModel :=
  [ defaultTable1; defaultTable2; defaultTable3 ].

Definition defaultPlan : Plan :=
  {| guests := defaultGuests; tables := defaultTables |}.

(** ** Versions kept on the device *)

(** [SavedVersion] *)
Record SavedVersion := {
  sv_id : string;
  sv_name : string;
  sv_savedAt : string;
  sv_guests : list Guest;
  sv_tables : list TableModel;
  sv_stageSize : option (R * R);
  sv_pan : option (R * R);
}.

(** The branch of [saveCurrentVersion] that saves on the device; [id] is the
    result of [uid("v")] and [savedAt] the current date, [name] the trimmed
    name. *)
Definition saveLocalVersion (id savedAt name : string) (p : Plan)
    (stageSize pan : R * R) (prev : list SavedVersion) : list SavedVersion :=
  let version :=
    {| sv_id := id; sv_name := name; sv_savedAt := savedAt;
       sv_guests := guests p; sv_tables := tables p;
       sv_stageSize := Some stageSize; sv_pan := Some pan |} in
  take 20 (version :: prev).

(** [loadLocalVersion(id)]: the plan, stage size and pan it sets, if any;
    [calculateStageSize] depends on the window and is a parameter. *)
Definition loadLocalVersion (calculateStageSize : list TableModel -> R * R)
    (id : string) (savedVersions : list SavedVersion)
    : option (Plan * (R * R) * (R * R)) :=
  match list_find (fun x => sv_id x = id) savedVersions with
  | None => None
  | Some (_, v) =>
      Some ({| guests := sv_guests v; tables := sv_tables v |},
            default (calculateStageSize (sv_tables v)) (sv_stageSize v),
            default (0%R, 0%R) (sv_pan v))
  end.

(** ** The version store of the server *)

Module Server.

(** A JSON value as [JSON.parse] returns it; an object is its list of
    entries, with distinct keys. *)
Inductive json :=
| JNull
| JBool (b : bool)
| JNum (x : R)
| JStr (s : string)
| JArr (l : list json)
| JObj (l : list (string * json)).

(** The value of the entry of an object under [key]. *)
Fixpoint entry (key : string) (l : list (string * json)) : option json :=
  match l with
  | [] => None
  | (k, v) :: r => if bool_decide (k = key) then Some v else entry key r
  end.

(** Property access [o.key] (or destructuring) on an optional value:
    [undefined] unless [o] is an object with that key. *)
Definition field (key : string) (o : option json) : option json :=
  match o with
  | Some (JObj l) => entry key l
  | _ => None
  end.

(** What the handlers draw from their environment: the result of
    [randomUUID()], of [new Date().toISOString()], and the message of the
    error raised by the file system, if it fails. *)
Record Env := {
  env_uuid : string;
  env_now : string;
  env_fs_error : option string;
}.

(** [VersionPayload] *)
Record VersionPayload := {
  vp_name : string;
  vp_guests : list json;
  vp_tables : list json;
  vp_stageSize : option json;
  vp_pan : option json;
}.

(** The files [<id>.json] of the versions directory, as the parsed content
    of each: [JSON.parse (JSON.stringify v)] is taken to be [v]. *)
Abbreviation files := (gmap string json).

Definition is_id_char (a : Ascii.ascii) : bool :=
  let n := Ascii.nat_of_ascii a in
  ((48 <=? n) && (n <=? 57)) || ((97 <=? n) && (n <=? 102))
  || ((65 <=? n) && (n <=? 70)) || (n =? 45).

(** [isValidId(id)]: 36 characters, each a hexadecimal digit of either case
    or a hyphen. *)
Definition isValidId (id : string) : bool :=
  (String.length id =? 36) && forallb is_id_char (String.list_ascii_of_string id).

(** [VersionMeta] as the object [{ id, name, savedAt }]. *)
Definition meta_json (id name savedAt : string) : json :=
  JObj [("id", JStr id); ("name", JStr name); ("savedAt", JStr savedAt)].

(** [saveVersion(payload)]: [None] when the file system throws. *)
Definition saveVersion (env : Env) (payload : VersionPayload) (fs : files)
    : option (json * files) :=
  match env_fs_error env with
  | Some _ => None
  | None =>
      let id := env_uuid env in
      let savedAt := env_now env in
      let full :=
        JObj [ ("id", JStr id);
               ("name", JStr (vp_name payload));
               ("savedAt", JStr savedAt);
               ("guests", JArr (vp_guests payload));
               ("tables", JArr (vp_tables payload)) ] in
      Some (meta_json id (vp_name payload) savedAt, <[ id := full ]> fs)
  end.

(** [getVersion(id)] *)
Definition getVersion (id : string) (fs : files) : option json :=
  if negb (isValidId id) then None else fs !! id.

(** A response: its status code and JSON body (the diagnostic fields that
    accompany [message] in a 500 body are left out). *)
Inductive Response :=
| Created (meta : json)
| BadRequest (message : string)
| InternalError (message : string)
| OkJson (body : json)
| NotFound (message : string).

Definition status (r : Response) : nat :=
  match r with
  | Created _ => 201
  | BadRequest _ => 400
  | InternalError _ => 500
  | OkJson _ => 200
  | NotFound _ => 404
  end.

Section Routes.

(** [String.prototype.trim] *)
Variable trim : string -> string.

(** [typeof name === "string" ? name.trim() || "Unnamed version"
                              : "Unnamed version"] *)
Definition version_name (name : option json) : string :=
  match name with
  | Some (JStr s) =>
      if bool_decide (trim s = EmptyString) then "Unnamed version" else trim s
  | _ => "Unnamed version"
  end.

(** [POST /api/versions] *)
Definition post_versions (env : Env) (body : option json) (fs : files)
    : Response * files :=
  let name := field "name" body in
  let guests := field "guests" body in
  let tables := field "tables" body in
  match guests, tables with
  | Some (JArr gs), Some (JArr ts) =>
      match saveVersion env
              {| vp_name := version_name name;
                 vp_guests := gs;
                 vp_tables := ts;
                 vp_stageSize := None;
                 vp_pan := None |} fs with
      | Some (meta, fs') => (Created meta, fs')
      | None =>
          (InternalError
             (default "Failed to save version" (env_fs_error env)), fs)
      end
  | _, _ => (BadRequest "Missing or invalid guests/tables", fs)
  end.

(** [!version] for a parsed JSON value: [null], [false], [0] and the empty
    string are falsy, arrays and objects are not. *)
Definition falsy (v : json) : bool :=
  match v with
  | JNull => true
  | JBool b => negb b
  | JNum x => if Req_dec_T x 0 then true else false
  | JStr s => bool_decide (s = EmptyString)
  | JArr _ => false
  | JObj _ => false
  end.

(** [GET /api/versions/:id]: [if (!version) return res.status(404)]. *)
Definition get_version (id : string) (fs : files) : Response :=
  match getVersion id fs with
  | None => NotFound "Version not found"
  | Some version =>
      if falsy version then NotFound "Version not found" else OkJson version
  end.

End Routes.

(** *** The client's side of a save and of a load *)

Definition opt_entry (key : string) (v : option json) : list (string * json) :=
  match v with Some j => [(key, j)] | None => [] end.

(** [JSON.stringify] of a [Guest]: an [undefined] field is left out. *)
Definition guest_json (g : Guest) : json :=
  JObj ([ ("id", JStr (guest_id g));
          ("name", JStr (guest_name g));
          ("gender", JStr (gender_string (guest_gender g))) ]
        ++ opt_entry "photoUrl" (JStr <$> guest_photoUrl g)).

Definition chair_json (c : Chair) : json :=
  JObj ([ ("id", JStr (chair_id c)) ]
        ++ opt_entry "guestId" (JStr <$> chair_guestId c)).

Definition shape_string (s : TableShape) : string :=
  match s with round => "round" | rect => "rect" end.

Definition style_string (s : TableNumberStyle) : string :=
  match s with classic => "classic" | monogram => "monogram" | modern => "modern" end.

Definition table_json (t : TableModel) : json :=
  JObj ([ ("id", JStr (table_id t));
          ("number", JNum (IZR (table_number t))) ]
        ++ opt_entry "label" (JStr <$> table_label t)
        ++ [ ("shape", JStr (shape_string (table_shape t)));
             ("numberStyle", JStr (style_string (table_numberStyle t))) ]
        ++ opt_entry "isVip" (JBool <$> table_isVip t)
        ++ [ ("x", JNum (table_x t));
             ("y", JNum (table_y t));
             ("rotation", JNum (table_rotation t));
             ("chairs", JArr (chair_json <$> table_chairs t)) ]).

(** The body that [saveCurrentVersion] posts to the server. *)
Definition save_body (name : string) (p : Plan) (stageSize pan : R * R) : json :=
  JObj [ ("name", JStr name);
         ("guests", JArr (guest_json <$> guests p));
         ("tables", JArr (table_json <$> tables p));
         ("stageSize", JObj [("w", JNum (fst stageSize)); ("h", JNum (snd stageSize))]);
         ("pan", JObj [("x", JNum (fst pan)); ("y", JNum (snd pan))]) ].

End Server.

(** * The rest of the page and of the server *)

(** ** Patching a table *)

(** [Partial<TableModel>]: a key that the patch does not have is [None]. *)
Record TablePatch := {
  patch_id : option string;
  patch_number : option Z;
  patch_label : option (option string);
  patch_shape : option TableShape;
  patch_numberStyle : option TableNumberStyle;
  patch_isVip : option (option bool);
  patch_x : option R;
  patch_y : option R;
  patch_rotation : option R;
  patch_chairs : option (list Chair);
}.

(** [{ ...t, ...patch }] *)
Definition apply_patch (t : TableModel) (patch : TablePatch) : TableModel :=
  {| table_id := default (table_id t) (patch_id patch);
     table_number := default (table_number t) (patch_number patch);
     table_label := default (table_label t) (patch_label patch);
     table_shape := default (table_shape t) (patch_shape patch);
     table_numberStyle := default (table_numberStyle t) (patch_numberStyle patch);
     table_isVip := default (table_isVip t) (patch_isVip patch);
     table_x := default (table_x t) (patch_x patch);
     table_y := default (table_y t) (patch_y patch);
     table_rotation := default (table_rotation t) (patch_rotation patch);
     table_chairs := default (table_chairs t) (patch_chairs patch) |}.

(** [setTablePatch(tableId, patch)] *)
Definition setTablePatch (tableId : string) (patch : TablePatch)
    (prev : list TableModel) : list TableModel :=
  (fun t => if bool_decide (table_id t = tableId) then apply_patch t patch else t)
  <$> prev.

(** [{}] *)
Definition empty_patch : TablePatch :=
  {| patch_id := None; patch_number := None; patch_label := None;
     patch_shape := None; patch_numberStyle := None; patch_isVip := None;
     patch_x := None; patch_y := None; patch_rotation := None;
     patch_chairs := None |}.

(** The patches the page builds. *)
Definition position_patch (x y : R) : TablePatch :=
  {| patch_id := None; patch_number := None; patch_label := None;
     patch_shape := None; patch_numberStyle := None; patch_isVip := None;
     patch_x := Some x; patch_y := Some y; patch_rotation := None;
     patch_chairs := None |}.

Definition rotation_patch (rotation : R) : TablePatch :=
  {| patch_id := None; patch_number := None; patch_label := None;
     patch_shape := None; patch_numberStyle := None; patch_isVip := None;
     patch_x := None; patch_y := None; patch_rotation := Some rotation;
     patch_chairs := None |}.

Definition number_patch (number : Z) : TablePatch :=
  {| patch_id := None; patch_number := Some number; patch_label := None;
     patch_shape := None; patch_numberStyle := None; patch_isVip := None;
     patch_x := None; patch_y := None; patch_rotation := None;
     patch_chairs := None |}.

Definition shape_patch (shape : TableShape) : TablePatch :=
  {| patch_id := None; patch_number := None; patch_label := None;
     patch_shape := Some shape; patch_numberStyle := None; patch_isVip := None;
     patch_x := None; patch_y := None; patch_rotation := None;
     patch_chairs := None |}.

Definition numberStyle_patch (style : TableNumberStyle) : TablePatch :=
  {| patch_id := None; patch_number := None; patch_label := None;
     patch_shape := None; patch_numberStyle := Some style; patch_isVip := None;
     patch_x := None; patch_y := None; patch_rotation := None;
     patch_chairs := None |}.

Definition isVip_patch (checked : bool) : TablePatch :=
  {| patch_id := None; patch_number := None; patch_label := None;
     patch_shape := None; patch_numberStyle := None;
     patch_isVip := Some (Some checked);
     patch_x := None; patch_y := None; patch_rotation := None;
     patch_chairs := None |}.

(** ** Adding a table *)

Section AddTable.

Variable random_hex : nat -> string.
Variable now_hex : nat -> string.

(** The table [base] of [addTable(shape)], given the result [id] of
    [uid("t")]. *)
Definition new_table (id : string) (shape : TableShape) (snapToGrid : bool)
    (stageSize pan : R * R) (ts : list TableModel) : TableModel :=
  {| table_id := id;
     table_number := nextTableNumber ts;
     table_label := None;
     table_shape := shape;
     table_numberStyle := match shape with rect => modern | round => classic end;
     table_isVip := Some false;
     table_x := snap snapToGrid (stageSize.1 * 0.5 - pan.1);
     table_y := snap snapToGrid (stageSize.2 * 0.5 - pan.2);
     table_rotation := 0;
     table_chairs :=
       (fun i => {| chair_id := id +:+ "c" +:+ pretty (i + 1);
                    chair_guestId := None |})
       <$> seq 0 (match shape with rect => 12 | round => 8 end) |}.

(** [addTable(shape)]: the new table collection. *)
Definition addTable (shape : TableShape) (snapToGrid : bool)
    (stageSize pan : R * R) (ts : list TableModel) : Gen (list TableModel) :=
  do id <- uid random_hex now_hex "t";
  gret (ts ++ [new_table id shape snapToGrid stageSize pan ts]).

End AddTable.

(** ** The state of the page and its handlers *)

Inductive Tool := tool_select | tool_pan.

Global Instance Tool_eq_dec : EqDecision Tool.
Proof. solve_decision. Defined.

(** A pointer event: [clientX] and [clientY]. *)
Record Pointer := {
  clientX : R;
  clientY : R;
}.

(** [panStart.current] *)
Record PanStart := {
  ps_x : R;
  ps_y : R;
  ps_px : R;
  ps_py : R;
}.

(** [dragging.current] *)
Record Dragging := {
  dr_tableId : string;
  dr_startX : R;
  dr_startY : R;
  dr_tableX : R;
  dr_tableY : R;
}.

(** The state and refs of [SeatingDesignerPage] that its handlers read and
    set. *)
Record Page := {
  pg_guests : list Guest;
  pg_tables : list TableModel;
  pg_selectedTableId : option string;
  pg_activeSeat : option (string * string);
  pg_tool : Tool;
  pg_snapToGrid : bool;
  pg_stageSize : R * R;
  pg_pan : R * R;
  pg_panning : bool;
  pg_panStart : option PanStart;
  pg_dragging : option Dragging;
}.

Definition set_tables (ts : list TableModel) (s : Page) : Page :=
  {| pg_guests := pg_guests s; pg_tables := ts;
     pg_selectedTableId := pg_selectedTableId s;
     pg_activeSeat := pg_activeSeat s; pg_tool := pg_tool s;
     pg_snapToGrid := pg_snapToGrid s; pg_stageSize := pg_stageSize s;
     pg_pan := pg_pan s; pg_panning := pg_panning s;
     pg_panStart := pg_panStart s; pg_dragging := pg_dragging s |}.

Definition set_guests (gs : list Guest) (s : Page) : Page :=
  {| pg_guests := gs; pg_tables := pg_tables s;
     pg_selectedTableId := pg_selectedTableId s;
     pg_activeSeat := pg_activeSeat s; pg_tool := pg_tool s;
     pg_snapToGrid := pg_snapToGrid s; pg_stageSize := pg_stageSize s;
     pg_pan := pg_pan s; pg_panning := pg_panning s;
     pg_panStart := pg_panStart s; pg_dragging := pg_dragging s |}.

Definition set_selectedTableId (sel : option string) (s : Page) : Page :=
  {| pg_guests := pg_guests s; pg_tables := pg_tables s;
     pg_selectedTableId := sel;
     pg_activeSeat := pg_activeSeat s; pg_tool := pg_tool s;
     pg_snapToGrid := pg_snapToGrid s; pg_stageSize := pg_stageSize s;
     pg_pan := pg_pan s; pg_panning := pg_panning s;
     pg_panStart := pg_panStart s; pg_dragging := pg_dragging s |}.

Definition set_activeSeat (seat : option (string * string)) (s : Page) : Page :=
  {| pg_guests := pg_guests s; pg_tables := pg_tables s;
     pg_selectedTableId := pg_selectedTableId s;
     pg_activeSeat := seat; pg_tool := pg_tool s;
     pg_snapToGrid := pg_snapToGrid s; pg_stageSize := pg_stageSize s;
     pg_pan := pg_pan s; pg_panning := pg_panning s;
     pg_panStart := pg_panStart s; pg_dragging := pg_dragging s |}.

Definition set_tool (tool : Tool) (s : Page) : Page :=
  {| pg_guests := pg_guests s; pg_tables := pg_tables s;
     pg_selectedTableId := pg_selectedTableId s;
     pg_activeSeat := pg_activeSeat s; pg_tool := tool;
     pg_snapToGrid := pg_snapToGrid s; pg_stageSize := pg_stageSize s;
     pg_pan := pg_pan s; pg_panning := pg_panning s;
     pg_panStart := pg_panStart s; pg_dragging := pg_dragging s |}.

Definition set_pan (pan : R * R) (s : Page) : Page :=
  {| pg_guests := pg_guests s; pg_tables := pg_tables s;
     pg_selectedTableId := pg_selectedTableId s;
     pg_activeSeat := pg_activeSeat s; pg_tool := pg_tool s;
     pg_snapToGrid := pg_snapToGrid s; pg_stageSize := pg_stageSize s;
     pg_pan := pan; pg_panning := pg_panning s;
     pg_panStart := pg_panStart s; pg_dragging := pg_dragging s |}.

Definition set_stageSize (size : R * R) (s : Page) : Page :=
  {| pg_guests := pg_guests s; pg_tables := pg_tables s;
     pg_selectedTableId := pg_selectedTableId s;
     pg_activeSeat := pg_activeSeat s; pg_tool := pg_tool s;
     pg_snapToGrid := pg_snapToGrid s; pg_stageSize := size;
     pg_pan := pg_pan s; pg_panning := pg_panning s;
     pg_panStart := pg_panStart s; pg_dragging := pg_dragging s |}.

Definition set_panning (panning : bool) (start : option PanStart) (s : Page)
    : Page :=
  {| pg_guests := pg_guests s; pg_tables := pg_tables s;
     pg_selectedTableId := pg_selectedTableId s;
     pg_activeSeat := pg_activeSeat s; pg_tool := pg_tool s;
     pg_snapToGrid := pg_snapToGrid s; pg_stageSize := pg_stageSize s;
     pg_pan := pg_pan s; pg_panning := panning;
     pg_panStart := start; pg_dragging := pg_dragging s |}.

Definition set_dragging (d : option Dragging) (s : Page) : Page :=
  {| pg_guests := pg_guests s; pg_tables := pg_tables s;
     pg_selectedTableId := pg_selectedTableId s;
     pg_activeSeat := pg_activeSeat s; pg_tool := pg_tool s;
     pg_snapToGrid := pg_snapToGrid s; pg_stageSize := pg_stageSize s;
     pg_pan := pg_pan s; pg_panning := pg_panning s;
     pg_panStart := pg_panStart s; pg_dragging := d |}.

(** [selectedTable]: [tables.find((t) => t.id === selectedTableId) ?? null] *)
Definition selectedTable (s : Page) : option TableModel :=
  match pg_selectedTableId s with
  | Some sel => snd <$> list_find (fun t => table_id t = sel) (pg_tables s)
  | None => None
  end.

(** [onStagePointerDown(e)] *)
Definition onStagePointerDown (e : Pointer) (s : Page) : Page :=
  if negb (bool_decide (pg_tool s = tool_pan)) then s
  else set_panning true
         (Some {| ps_x := clientX e; ps_y := clientY e;
                  ps_px := (pg_pan s).1; ps_py := (pg_pan s).2 |}) s.

(** [onStagePointerMove(e)] *)
Definition onStagePointerMove (e : Pointer) (s : Page) : Page :=
  if negb (pg_panning s) || negb (bool_decide (pg_tool s = tool_pan)) then s
  else match pg_panStart s with
       | None => s
       | Some start =>
           let dx := (clientX e - ps_x start)%R in
           let dy := (clientY e - ps_y start)%R in
           set_pan ((ps_px start + dx)%R, (ps_py start + dy)%R) s
       end.

(** [onStagePointerUp()] *)
Definition onStagePointerUp (s : Page) : Page :=
  set_panning false None s.

(** [startDrag(tableId, e)]; [stageMounted] tells whether [stageRef.current]
    is set. *)
Definition startDrag (tableId : string) (e : Pointer) (stageMounted : bool)
    (s : Page) : Page :=
  if negb (bool_decide (pg_tool s = tool_select)) then s
  else match list_find (fun x => table_id x = tableId) (pg_tables s) with
       | None => s
       | Some (_, t) =>
           let s1 := set_selectedTableId (Some tableId) s in
           if negb stageMounted then s1
           else set_dragging
                  (Some {| dr_tableId := tableId;
                           dr_startX := clientX e; dr_startY := clientY e;
                           dr_tableX := table_x t; dr_tableY := table_y t |})
                  s1
       end.

(** [moveDrag(e)] *)
Definition moveDrag (e : Pointer) (s : Page) : Page :=
  match pg_dragging s with
  | None => s
  | Some d =>
      let dx := (clientX e - dr_startX d)%R in
      let dy := (clientY e - dr_startY d)%R in
      set_tables
        (setTablePatch (dr_tableId d)
           (position_patch (snap (pg_snapToGrid s) (dr_tableX d + dx))
                           (snap (pg_snapToGrid s) (dr_tableY d + dy)))
           (pg_tables s))
        s
  end.

(** [endDrag()] *)
Definition endDrag (s : Page) : Page := set_dragging None s.

(** [deleteTable(tableId)] with its update of the selection. *)
Definition page_deleteTable (tableId : string) (s : Page) : Page :=
  set_selectedTableId
    (if bool_decide (pg_selectedTableId s = Some tableId) then None
     else pg_selectedTableId s)
    (set_tables (deleteTable tableId (pg_tables s)) s).

(** The [keydown] listener. *)
Definition onKeydown (key : string) (s : Page) : Page :=
  let s1 := if bool_decide (key = "Escape") then set_activeSeat None s else s in
  if bool_decide (key = "Delete") && truthy (pg_selectedTableId s)
  then match pg_selectedTableId s with
       | Some sel => page_deleteTable sel s1
       | None => s1
       end
  else s1.

(** The rotation buttons: [rotation: selectedTable.rotation -/+ 0.15]. *)
Definition rotate_left (s : Page) : Page :=
  match selectedTable s with
  | None => s
  | Some t =>
      set_tables (setTablePatch (table_id t)
                    (rotation_patch (table_rotation t - 0.15)) (pg_tables s)) s
  end.

Definition rotate_right (s : Page) : Page :=
  match selectedTable s with
  | None => s
  | Some t =>
      set_tables (setTablePatch (table_id t)
                    (rotation_patch (table_rotation t + 0.15)) (pg_tables s)) s
  end.

(** A click on a seat marker, with the popover it opens:
    [setSelectedTableId(t.id)] and [setActiveSeat({ tableId, chairId })]. *)
Definition onSeatClick (t : TableModel) (c : Chair) (s : Page) : Page :=
  set_activeSeat (Some (table_id t, chair_id c))
    (set_selectedTableId (Some (table_id t)) s).

(** [onDrop] of a seat marker: a dragged guest is assigned only to a chair
    that resolves to no guest. *)
Definition onSeatDrop (t : TableModel) (c : Chair)
    (draggedGuestId : option string) (s : Page) : Page :=
  if truthy draggedGuestId
     && negb (bool_decide (is_Some (resolve_guest (pg_guests s) c)))
  then set_tables
         (assignGuest (table_id t) (chair_id c) draggedGuestId (pg_tables s)) s
  else s.

Section PageMutators.

Variable random_hex : nat -> string.
Variable now_hex : nat -> string.

(** [addTable(shape)] with its update of the selection. *)
Definition page_addTable (shape : TableShape) (s : Page) : Gen Page :=
  do id <- uid random_hex now_hex "t";
  gret (set_selectedTableId (Some id)
          (set_tables
             (pg_tables s
              ++ [new_table id shape (pg_snapToGrid s) (pg_stageSize s)
                    (pg_pan s) (pg_tables s)])
             s)).

(** [duplicateTable(tableId)] with its update of the selection. *)
Definition page_duplicateTable (tableId : string) (s : Page) : Gen Page :=
  match list_find (fun x => table_id x = tableId) (pg_tables s) with
  | None => gret s
  | Some _ =>
      fun k =>
        let id := (uid random_hex now_hex "t" k).1 in
        let '(ts, k1) :=
          duplicateTable random_hex now_hex (pg_snapToGrid s) tableId
            (pg_tables s) k in
        (set_selectedTableId (Some id) (set_tables ts s), k1)
  end.

(** [setChairsCount(tableId, count)] on the page. *)
Definition page_setChairsCount (tableId : string) (count : Z) (s : Page)
    : Gen Page :=
  do ts <- setChairsCount random_hex now_hex tableId count (pg_tables s);
  gret (set_tables ts s).

End PageMutators.

(** [removeGuest(guestId)] on the page. *)
Definition page_removeGuest (guestId : string) (s : Page) : Page :=
  set_guests (filter (fun g => guest_id g <> guestId) (pg_guests s))
    (set_tables (unassignGuestEverywhere guestId (pg_tables s)) s).

(** What every load of a version sets, once [guests], [tables] and the
    optional [stageSize] and [pan] of the version are known. *)
Definition load_into (calculateStageSize : list TableModel -> R * R)
    (gs : list Guest) (ts : list TableModel) (stageSize pan : option (R * R))
    (s : Page) : Page :=
  set_pan (default (0%R, 0%R) pan)
    (set_stageSize (default (calculateStageSize ts) stageSize)
       (set_selectedTableId (table_id <$> head ts)
          (set_tables ts (set_guests gs s)))).

(** [loadLocalVersion(id)] on the page. *)
Definition page_loadLocalVersion (calculateStageSize : list TableModel -> R * R)
    (id : string) (savedVersions : list SavedVersion) (s : Page) : Page :=
  match list_find (fun x => sv_id x = id) savedVersions with
  | None => s
  | Some (_, v) =>
      load_into calculateStageSize (sv_guests v) (sv_tables v)
        (sv_stageSize v) (sv_pan v) s
  end.

(** [deleteLocalVersion(id)] *)
Definition deleteLocalVersion (id : string) (prev : list SavedVersion)
    : list SavedVersion :=
  filter (fun x => sv_id x <> id) prev.

(** ** The size of the stage *)

Section StageSize.
Local Open Scope R_scope.

(** [window.innerWidth] *)
Variable innerWidth : R.

(** The comparison of two numbers. *)
#[local] Instance Rlt_decision (x y : R) : Decision (x < y) := Rlt_dec x y.

Definition isMobile : bool := bool_decide (innerWidth < 768).

Definition halfW (t : TableModel) : R := (tableSize (table_shape t)).1 / 2.
Definition halfH (t : TableModel) : R := (tableSize (table_shape t)).2 / 2.

(** [calculateStageSize(tablesList)]. The four running bounds start at plus
    or minus infinity, and [Math.min(Infinity, a)] is [a]: each fold starts
    here from the value of the first table. *)
Definition calculateStageSize (tablesList : list TableModel) : R * R :=
  match tablesList with
  | [] => if isMobile then (Rmin 800 (innerWidth - 32), 600) else (1000, 650)
  | t0 :: rest =>
      let padding := if isMobile then 100 else 200 in
      let minX := foldl (fun m t => Rmin m (table_x t - halfW t))
                        (table_x t0 - halfW t0) rest in
      let minY := foldl (fun m t => Rmin m (table_y t - halfH t))
                        (table_y t0 - halfH t0) rest in
      let maxX := foldl (fun m t => Rmax m (table_x t + halfW t))
                        (table_x t0 + halfW t0) rest in
      let maxY := foldl (fun m t => Rmax m (table_y t + halfH t))
                        (table_y t0 + halfH t0) rest in
      let calculatedW := maxX - minX + padding * 2 in
      let calculatedH := maxY - minY + padding * 2 in
      if isMobile then
        let maxWidth := Rmin 800 (innerWidth - 32) in
        (Rmax maxWidth calculatedW, Rmax 500 calculatedH)
      else (Rmax 800 calculatedW, Rmax 600 calculatedH)
  end.

End StageSize.

(** ** Deleting a version on the server *)

(** [deleteVersion(id)]: whether a file was removed, and the files left. *)
Definition deleteVersion (id : string) (fs : gmap string Server.json)
    : bool * gmap string Server.json :=
  if negb (Server.isValidId id) then (false, fs)
  else match fs !! id with
       | Some _ => (true, delete id fs)
       | None => (false, fs)
       end.

(** [DELETE /api/versions/:id]: the status of the response. *)
Definition delete_version (id : string) (fs : gmap string Server.json)
    : nat * gmap string Server.json :=
  let '(ok, fs') := deleteVersion id fs in
  if negb ok then (404, fs') else (204, fs').

(** * Vocabulary of the properties *)

(** ** Seats and guest references *)

(** The guest a chair counts as holding: its [guestId] when truthy. *)
Definition chair_ref (c : Chair) : option string :=
  if truthy (chair_guestId c) then chair_guestId c else None.

Definition refs_of_chairs (cs : list Chair) : list string := omap chair_ref cs.

(** Every guest reference of the plan, in table and chair order. *)
Definition seat_refs (ts : list TableModel) : list string :=
  ts ≫= fun t => refs_of_chairs (table_chairs t).

(** Every chair of the plan with the id of its table. *)
Definition all_chairs (ts : list TableModel) : list (string * Chair) :=
  ts ≫= fun t => pair (table_id t) <$> table_chairs t.

(** The pair that identifies a seat to [assignGuest]. *)
Definition seat_key (tc : string * Chair) : string * string :=
  (tc.1, chair_id tc.2).

(** The guest a seat counts as holding. *)
Definition seat_ref (tc : string * Chair) : option string := chair_ref tc.2.

(** ** What the mutators do to a chair, a seat or a table *)

(** What [assignGuest] does to one chair of the table [tid]. *)
Definition assign_chair (tableId chairId : string) (guestId : option string)
    (tid : string) (c : Chair) : Chair :=
  if bool_decide (tid = tableId /\ chair_id c = chairId)
  then with_guestId c guestId else c.

(** [assignGuest] on one seat. *)
Definition assign_seat (tableId chairId : string) (guestId : option string)
    (tc : string * Chair) : string * Chair :=
  (tc.1, assign_chair tableId chairId guestId tc.1 tc.2).


(** A chair after the guest [g] has been unassigned everywhere: the same
    identity, and no guest if it held [g], its own guest reference otherwise. *)
Definition cleared (g : string) (c c' : Chair) : Prop :=
  chair_id c' = chair_id c
  /\ chair_guestId c' =
       if bool_decide (chair_guestId c = Some g) then None else chair_guestId c.

(** A table after the guest [g] has been unassigned everywhere. *)
Definition table_cleared (g : string) (t t' : TableModel) : Prop :=
  table_id t' = table_id t
  /\ table_number t' = table_number t
  /\ table_label t' = table_label t
  /\ table_shape t' = table_shape t
  /\ table_numberStyle t' = table_numberStyle t
  /\ table_isVip t' = table_isVip t
  /\ table_x t' = table_x t
  /\ table_y t' = table_y t
  /\ table_rotation t' = table_rotation t
  /\ Forall2 (cleared g) (table_chairs t) (table_chairs t').

(** What [setChairsCount] does to one table: a table with another id is
    returned as it is; the targeted one keeps every field but [chairs],
    which become the first [clamp count 2 20] of the existing chairs
    followed by as many new, empty chairs as are missing. *)
Definition resized (tableId : string) (count : Z) (t t' : TableModel) : Prop :=
  if bool_decide (table_id t = tableId) then
    let next := Z.to_nat (clamp count 2 20) in
    exists add,
      t' = with_chairs t (take next (table_chairs t) ++ add)
      /\ length add = next - length (table_chairs t)
      /\ Forall (fun c => chair_guestId c = None) add
  else t' = t.

(** The chairs of [t] kept by [setChairsCount(tableId, count)], and those
    it drops. *)
Definition retained (tableId : string) (count : Z) (t : TableModel) : list Chair :=
  if bool_decide (table_id t = tableId)
  then take (Z.to_nat (clamp count 2 20)) (table_chairs t)
  else table_chairs t.

Definition removed (tableId : string) (count : Z) (t : TableModel) : list Chair :=
  if bool_decide (table_id t = tableId)
  then drop (Z.to_nat (clamp count 2 20)) (table_chairs t)
  else [].

(** ** The sides of a rectangular table *)

Section Sides.
Local Open Scope R_scope.

(** The two ends of a side of the [w] by [h] footprint, in the order in which
    its chairs are laid out, and the unit vector pointing away from the table
    on that side. *)
Definition edge_start (side : nat) (w h : R) : R * R :=
  match side with
  | 0%nat => (- w / 2, - h / 2)
  | 1%nat => (w / 2, - h / 2)
  | 2%nat => (- w / 2, h / 2)
  | _ => (- w / 2, - h / 2)
  end.

Definition edge_end (side : nat) (w h : R) : R * R :=
  match side with
  | 0%nat => (w / 2, - h / 2)
  | 1%nat => (w / 2, h / 2)
  | 2%nat => (w / 2, h / 2)
  | _ => (- w / 2, h / 2)
  end.

Definition outward (side : nat) : R * R :=
  match side with
  | 0%nat => (0, -1)
  | 1%nat => (1, 0)
  | 2%nat => (0, 1)
  | _ => (-1, 0)
  end.

(** Linear interpolation between two points. *)
Definition lerp (a b : R * R) (t : R) : R * R :=
  (a.1 + t * (b.1 - a.1), a.2 + t * (b.2 - a.2)).

End Sides.

(** ** Table order and CSV rows *)

(** The order of [guestsByTable]. *)
Definition by_number : relation TableModel :=
  fun a b => (table_number a <= table_number b)%Z.

(** The rows of one table: one per chair, in chair order, numbered from 1,
    with the name and gender of the guest the chair resolves to. *)
Definition table_rows (gs : list Guest) (t : TableModel) : list (list string) :=
  imap (fun i c =>
          [ pretty (table_number t);
            (if default false (table_isVip t) then "Yes" else EmptyString);
            pretty (i + 1);
            from_option guest_name EmptyString (resolve_guest gs c);
            from_option (fun g => gender_string (guest_gender g)) EmptyString
              (resolve_guest gs c) ])
       (table_chairs t).


(** ** Sample data *)


(** The oracles of [uid] used in the examples. *)
Definition sample_random (k : nat) : string := "8f3a9c" +:+ pretty k.
Definition sample_now (k : nat) : string := "18c2d4e5f6" +:+ pretty k.


Definition sample_env : Server.Env :=
  {| Server.env_uuid := "3f2b8c1e-5d47-4a9b-8e6f-0c1d2e3f4a5b";
     Server.env_now := "2026-01-15T10:30:00.000Z";
     Server.env_fs_error := None |}.

Definition sample_body : Server.json :=
  Server.save_body "Gala" defaultPlan (1000, 650)%R (12, -8)%R.

(** Concrete instances of the invariants are decided by computation. *)
Ltac decide_by_computation :=
  apply (bool_decide_unpack _); vm_compute; exact I.

(** ** Invariants of the plan and of the page *)

(** Every guest reference of a chair is the id of a guest of the plan. *)
Definition no_dangling (p : Plan) : Prop :=
  forall x, x ∈ seat_refs (tables p) -> x ∈ guest_id <$> guests p.

(** The selection is empty or the id of a table of the page. *)
Definition selection_ok (s : Page) : Prop :=
  match pg_selectedTableId s with
  | None => True
  | Some sel => sel ∈ table_id <$> pg_tables s
  end.

(** How a seat changes when the guest [g] is unassigned everywhere and then
    assigned to the seat [(tableId, chairId)]. *)
Definition seat_reassigned (tableId chairId g : string)
    (tc tc' : string * Chair) : Prop :=
  tc'.1 = tc.1
  /\ chair_id tc'.2 = chair_id tc.2
  /\ chair_guestId tc'.2 =
       if bool_decide (seat_key tc = (tableId, chairId)) then Some g
       else if bool_decide (chair_guestId tc.2 = Some g) then None
       else chair_guestId tc.2.


(** The plan of a page. *)
Definition page_plan (s : Page) : Plan :=
  {| guests := pg_guests s; tables := pg_tables s |}.

(** The first page shown on a window at least 768 wide: the initial plan,
    table 1 selected, the pan tool, and the stage of
    [calculateStageSize(defaultTables)], which is 800 by 706 there. *)
Definition defaultPage : Page :=
  {| pg_guests := defaultGuests; pg_tables := defaultTables;
     pg_selectedTableId := Some "t1"; pg_activeSeat := None;
     pg_tool := tool_pan; pg_snapToGrid := true;
     pg_stageSize := (800, 706)%R; pg_pan := (0, 0)%R;
     pg_panning := false; pg_panStart := None; pg_dragging := None |}.

(** One handler of the page run on a page. The entropy of [uid], the stage
    size computed on a load and the versions saved on the device are those
    of the moment. *)
Inductive page_step : Page -> Page -> Prop :=
| step_addTable random_hex now_hex shape k s :
    page_step s (page_addTable random_hex now_hex shape s k).1
| step_duplicateTable random_hex now_hex tableId k s :
    page_step s (page_duplicateTable random_hex now_hex tableId s k).1
| step_deleteTable tableId s :
    page_step s (page_deleteTable tableId s)
| step_setChairsCount random_hex now_hex tableId count k s :
    page_step s (page_setChairsCount random_hex now_hex tableId count s k).1
| step_patch patch s t :
    selectedTable s = Some t -> patch_id patch = None ->
    page_step s (set_tables (setTablePatch (table_id t) patch (pg_tables s)) s)
| step_rotate_left s : page_step s (rotate_left s)
| step_rotate_right s : page_step s (rotate_right s)
| step_startDrag tableId e stageMounted s :
    page_step s (startDrag tableId e stageMounted s)
| step_moveDrag e s : page_step s (moveDrag e s)
| step_endDrag s : page_step s (endDrag s)
| step_pointerDown e s : page_step s (onStagePointerDown e s)
| step_pointerMove e s : page_step s (onStagePointerMove e s)
| step_pointerUp s : page_step s (onStagePointerUp s)
| step_keydown key s : page_step s (onKeydown key s)
| step_setTool tool s : page_step s (set_tool tool s)
| step_seatClick t c s :
    t ∈ pg_tables s -> page_step s (onSeatClick t c s)
| step_seatDrop t c dragged s :
    page_step s (onSeatDrop t c dragged s)
| step_assignGuest tableId chairId guestId s :
    page_step s
      (set_tables (assignGuest tableId chairId guestId (pg_tables s)) s)
| step_removeGuest guestId s :
    page_step s (page_removeGuest guestId s)
| step_loadLocalVersion calc id savedVersions s :
    page_step s (page_loadLocalVersion calc id savedVersions s)
| step_load calc gs ts stageSize pan s :
    page_step s (load_into calc gs ts stageSize pan s).

(** The moves of a gesture, run in order. *)
Definition run_moves (move : Pointer -> Page -> Page) (es : list Pointer)
    (s : Page) : Page :=
  foldl (fun s e => move e s) s es.


(** ** Moving a plan as a whole *)

(** The table [t] moved by [(dx, dy)]. *)
Definition moved (dx dy : R) (t : TableModel) : TableModel :=
  apply_patch t (position_patch (table_x t + dx) (table_y t + dy))%R.

(** ** Reading comma-separated text *)

(** A reader of comma-separated text, used to state that the export can be
    read back: fields end at a comma and rows at a line feed, a carriage
    return outside quotes is dropped, and a field that opens with a quote
    runs to the next quote that is not doubled. *)
Inductive ReadMode := at_start | in_plain | in_quotes | after_quote.

(** What has been read: the field being read, the fields that follow it in
    its row, and the rows that follow. *)
Definition Reading : Type := string * list string * list (list string).

Definition push_char (a : Ascii.ascii) (r : Reading) : Reading :=
  let '(f, fs, rows) := r in (String a f, fs, rows).

Definition push_string (v : string) (r : Reading) : Reading :=
  let '(f, fs, rows) := r in (v +:+ f, fs, rows).

Definition new_field (r : Reading) : Reading :=
  let '(f, fs, rows) := r in (EmptyString, f :: fs, rows).

Definition new_row (r : Reading) : Reading :=
  let '(f, fs, rows) := r in (EmptyString, [], (f :: fs) :: rows).

Fixpoint read (m : ReadMode) (s : string) : Reading :=
  match s with
  | EmptyString => (EmptyString, [], [])
  | String a r =>
      match m with
      | in_quotes =>
          if Ascii.eqb a dquote then read after_quote r
          else push_char a (read in_quotes r)
      | _ =>
          if Ascii.eqb a comma then new_field (read at_start r)
          else if Ascii.eqb a cr then read m r
          else if Ascii.eqb a lf then new_row (read at_start r)
          else if Ascii.eqb a dquote then
            match m with
            | at_start => read in_quotes r
            | after_quote => push_char a (read in_quotes r)
            | _ => push_char a (read in_plain r)
            end
          else push_char a (read in_plain r)
      end
  end.

Definition read_csv (s : string) : list (list string) :=
  let '(f, fs, rows) := read at_start s in (f :: fs) :: rows.

(** Where a field of the export ends: at the end of the text, before a comma
    or before a line break. *)
Definition field_end (rest : string) : Prop :=
  rest = EmptyString
  \/ (exists r, rest = String comma r)
  \/ (exists r, rest = String cr (String lf r)).

(** * Properties *)

(** ** Generic facts about [Gen] and lists *)

Lemma gmapM_Forall2 {A B} (f : A -> Gen B) (P : A -> B -> Prop) :
  (forall x k, P x (f x k).1) ->
  forall l k, Forall2 P l (gmapM f l k).1.
Proof.
  intros Hf l. induction l as [|x r IH]; intros k; cbn.
  - constructor.
  - unfold gbind, gret.
    pose proof (Hf x k) as Hx.
    destruct (f x k) as [y k1]; cbn in Hx.
    pose proof (IH k1) as Hr.
    destruct (gmapM f r k1) as [ys k2]; cbn in *.
    by constructor.
Qed.

Lemma gmapM_length {A B} (f : A -> Gen B) l k :
  length (gmapM f l k).1 = length l.
Proof.
  symmetry. eapply Forall2_length, (gmapM_Forall2 f (fun _ _ => True)); done.
Qed.

Lemma gmapM_Forall {A B} (f : A -> Gen B) (Q : B -> Prop) :
  (forall x k, Q (f x k).1) -> forall l k, Forall Q (gmapM f l k).1.
Proof.
  intros Hf l k.
  pose proof (gmapM_Forall2 f (fun _ y => Q y) Hf l k) as H.
  induction H; by constructor.
Qed.

Lemma fmap_fixed {A} (f : A -> A) (l : list A) :
  (forall x, x ∈ l -> f x = x) -> f <$> l = l.
Proof.
  intros H. induction l as [|x r IH]; [done|]. cbn. f_equal.
  - apply H. left.
  - apply IH. intros y Hy. apply H. by right.
Qed.

Lemma with_chairs_same t : with_chairs t (table_chairs t) = t.
Proof. by destruct t. Qed.

(** ** Chair count *)

Section ChairCount.

Variable random_hex : nat -> string.
Variable now_hex : nat -> string.

Lemma clamp_range n : (2 <= clamp n 2 20 <= 20)%Z.
Proof. unfold clamp. lia. Qed.

Lemma fresh_chairs_length tid len n k :
  length (fresh_chairs random_hex now_hex tid len n k).1 = n.
Proof. unfold fresh_chairs. by rewrite gmapM_length, length_seq. Qed.

Lemma fresh_chairs_empty tid len n k :
  Forall (fun c => chair_guestId c = None)
         (fresh_chairs random_hex now_hex tid len n k).1.
Proof. unfold fresh_chairs. by apply gmapM_Forall. Qed.

Lemma setChairsCount_table_resized tableId count t k :
  resized tableId count t
    (setChairsCount_table random_hex now_hex tableId count t k).1.
Proof.
  unfold resized, setChairsCount_table.
  pose proof (clamp_range count) as Hc.
  case_bool_decide as Hid; cbn; [|done].
  case_bool_decide as Heq; cbn.
  { exists []. rewrite app_nil_r, firstn_all2 by lia.
    rewrite with_chairs_same. repeat split; [cbn; lia | constructor]. }
  case_bool_decide as Hlt; unfold gbind, gret; cbn.
  - pose proof (fresh_chairs_length (table_id t) (length (table_chairs t))
      (Z.to_nat (clamp count 2 20 - Z.of_nat (length (table_chairs t)))) k) as Hl.
    pose proof (fresh_chairs_empty (table_id t) (length (table_chairs t))
      (Z.to_nat (clamp count 2 20 - Z.of_nat (length (table_chairs t)))) k) as He.
    destruct (fresh_chairs _ _ _ _ _ k) as [add k1]; cbn in *.
    exists add. rewrite firstn_all2 by lia. repeat split; [lia | done].
  - exists []. rewrite app_nil_r. repeat split; [cbn; lia | constructor].
Qed.

Lemma setChairsCount_resized tableId count prev k :
  Forall2 (resized tableId count) prev
    (setChairsCount random_hex now_hex tableId count prev k).1.
Proof. apply gmapM_Forall2. apply setChairsCount_table_resized. Qed.

Lemma resized_length tableId count t t' :
  resized tableId count t t' -> table_id t = tableId ->
  Z.of_nat (length (table_chairs t')) = clamp count 2 20.
Proof.
  unfold resized. intros H Hid. pose proof (clamp_range count).
  rewrite bool_decide_eq_true_2 in H by done.
  destruct H as (add & -> & Hl & _); cbn.
  rewrite length_app, length_take. lia.
Qed.

(** C2: after [setChairsCount(tableId, n)], every table with that id has
    [clamp(n, 2, 20)] chairs, a number within [2, 20], and every other table
    is unchanged; a request of -5 is clamped to 2, one of 999 to 20. *)
Theorem setChairsCount_clamps_chair_count tableId n prev k :
  Forall2
    (fun t t' =>
       if bool_decide (table_id t = tableId) then
         table_id t' = tableId
         /\ Z.of_nat (length (table_chairs t')) = clamp n 2 20
         /\ (2 <= Z.of_nat (length (table_chairs t')) <= 20)%Z
       else t' = t)
    prev (setChairsCount random_hex now_hex tableId n prev k).1
  /\ clamp (-5) 2 20 = 2%Z /\ clamp 999 2 20 = 20%Z.
Proof.
  split; [|done].
  eapply Forall2_impl; [apply setChairsCount_resized|].
  intros t t' Hr; cbn. case_bool_decide as Hid.
  - pose proof (resized_length _ _ _ _ Hr Hid) as Hlen.
    pose proof (clamp_range n).
    unfold resized in Hr. rewrite bool_decide_eq_true_2 in Hr by done.
    destruct Hr as (add & Ht & _).
    repeat split; try lia. by rewrite Ht.
  - unfold resized in Hr. by rewrite bool_decide_eq_false_2 in Hr.
Qed.

End ChairCount.

(** ** Seat assignment *)

Lemma seat_refs_all_chairs ts :
  seat_refs ts = omap (fun tc => chair_ref tc.2) (all_chairs ts).
Proof.
  unfold seat_refs, all_chairs, refs_of_chairs.
  induction ts as [|t r IH]; [done|]. cbn.
  rewrite omap_app, <- IH. f_equal.
  induction (table_chairs t) as [|c cs IHc]; [done|]. cbn.
  by rewrite IHc.
Qed.

Lemma assigned_chairs_spec (cs : list Chair) (acc : gset string) x :
  x ∈ foldl (fun acc c =>
               if truthy (chair_guestId c)
               then match chair_guestId c with
                    | Some g => {[ g ]} ∪ acc
                    | None => acc
                    end
               else acc) acc cs
  <-> x ∈ acc \/ x ∈ refs_of_chairs cs.
Proof.
  revert acc. induction cs as [|c cs IH]; intros acc; cbn.
  - rewrite elem_of_nil. tauto.
  - rewrite IH. unfold chair_ref.
    destruct (truthy (chair_guestId c)); [|tauto].
    destruct (chair_guestId c) as [g|]; [|tauto].
    rewrite elem_of_union, elem_of_singleton, elem_of_cons. tauto.
Qed.

Lemma assigned_spec ts x : x ∈ assigned ts <-> x ∈ seat_refs ts.
Proof.
  unfold assigned.
  enough (forall acc : gset string,
    x ∈ foldl (fun acc t =>
                 foldl (fun acc c =>
                          if truthy (chair_guestId c)
                          then match chair_guestId c with
                               | Some g => {[ g ]} ∪ acc
                               | None => acc
                               end
                          else acc) acc (table_chairs t)) acc ts
    <-> x ∈ acc \/ x ∈ seat_refs ts) as H.
  { rewrite H, elem_of_empty. tauto. }
  unfold seat_refs.
  induction ts as [|t r IH]; intros acc; cbn.
  - rewrite elem_of_nil. tauto.
  - rewrite IH, assigned_chairs_spec, elem_of_app. tauto.
Qed.

Lemma unassignedGuests_spec p g :
  g ∈ unassignedGuests p <-> g ∈ guests p /\ guest_id g ∉ seat_refs (tables p).
Proof.
  unfold unassignedGuests. rewrite list_elem_of_filter, assigned_spec. tauto.
Qed.

Lemma assignGuest_pointwise tableId chairId guestId prev :
  assignGuest tableId chairId guestId prev
  = (fun t => with_chairs t
                (assign_chair tableId chairId guestId (table_id t) <$> table_chairs t))
    <$> prev.
Proof.
  unfold assignGuest. apply list_fmap_ext. intros _ t _.
  unfold assign_chair. case_bool_decide as Hid; cbn.
  - f_equal. apply list_fmap_ext. intros _ c _.
    repeat case_bool_decide; (done || tauto).
  - rewrite <- (with_chairs_same t) at 1. f_equal.
    rewrite <- (list_fmap_id (table_chairs t)) at 1.
    apply list_fmap_ext. intros _ c _. cbn.
    case_bool_decide; (done || tauto).
Qed.

Lemma all_chairs_assignGuest tableId chairId guestId prev :
  all_chairs (assignGuest tableId chairId guestId prev)
  = assign_seat tableId chairId guestId <$> all_chairs prev.
Proof.
  rewrite assignGuest_pointwise. unfold all_chairs.
  induction prev as [|t r IH]; [done|]. cbn.
  rewrite fmap_app, <- IH. f_equal.
  rewrite <- !list_fmap_compose. by apply list_fmap_ext.
Qed.

(** When no seat has the key [(tableId, chairId)], [assignGuest] returns the
    table collection as it was. *)
Lemma assignGuest_no_seat_unchanged tableId chairId guestId prev
    (Hmiss : (tableId, chairId) ∉ (seat_key <$> all_chairs prev)) :
  assignGuest tableId chairId guestId prev = prev.
Proof.
  rewrite assignGuest_pointwise.
  apply fmap_fixed. intros t Ht.
  rewrite fmap_fixed; [apply with_chairs_same|].
  intros c Hc. unfold assign_chair.
  case_bool_decide as Hm; [|done].
  destruct Hm as [Hti Hci]. exfalso. apply Hmiss.
  apply list_elem_of_fmap. exists (table_id t, c). split.
  - unfold seat_key; cbn. by rewrite Hti, Hci.
  - unfold all_chairs. apply list_elem_of_bind. exists t. split; [|done].
    apply list_elem_of_fmap. by exists c.
Qed.

(** No table with the id, or no chair with the id on the tables that have
    it: in both cases no seat has the key. *)
Lemma no_table_no_seat tableId chairId prev :
  tableId ∉ (table_id <$> prev) ->
  (tableId, chairId) ∉ (seat_key <$> all_chairs prev).
Proof.
  intros Hn Hin. apply Hn.
  apply list_elem_of_fmap in Hin as ([tid c] & Hk & Hin).
  unfold all_chairs in Hin. apply list_elem_of_bind in Hin as (t & Hc & Ht).
  apply list_elem_of_fmap in Hc as (c' & Hc & _).
  apply list_elem_of_fmap. exists t. split; [|done].
  unfold seat_key in Hk. cbn in Hk. congruence.
Qed.

Lemma no_chair_no_seat tableId chairId prev :
  (forall t, t ∈ prev -> table_id t = tableId ->
             chairId ∉ (chair_id <$> table_chairs t)) ->
  (tableId, chairId) ∉ (seat_key <$> all_chairs prev).
Proof.
  intros Hn Hin.
  apply list_elem_of_fmap in Hin as ([tid c] & Hk & Hin).
  unfold all_chairs in Hin. apply list_elem_of_bind in Hin as (t & Hc & Ht).
  apply list_elem_of_fmap in Hc as (c' & Hc & Hc').
  unfold seat_key in Hk. cbn in Hk.
  apply (Hn t Ht); [congruence|].
  apply list_elem_of_fmap. exists c'. split; [congruence|done].
Qed.

(** C9: [assignGuest] with a [tableId] that matches no table, or with a
    [chairId] that matches no chair of the tables with that id, returns the
    table collection as it was. *)
Theorem assignGuest_no_match_unchanged tableId chairId guestId prev
    (Hmiss : tableId ∉ (table_id <$> prev)
             \/ forall t, t ∈ prev -> table_id t = tableId ->
                          chairId ∉ (chair_id <$> table_chairs t)) :
  assignGuest tableId chairId guestId prev = prev.
Proof.
  apply assignGuest_no_seat_unchanged.
  destruct Hmiss as [Ht|Hc].
  - by apply no_table_no_seat.
  - by apply no_chair_no_seat.
Qed.

Lemma assignGuest_no_match_unchanged_witness :
  ("t9" ∉ (table_id <$> defaultTables)
   \/ forall t, t ∈ defaultTables -> table_id t = "t9" ->
                "t1c1" ∉ (chair_id <$> table_chairs t))
  /\ assignGuest "t9" "t1c1" (Some "g1") defaultTables = defaultTables.
Proof.
  assert ("t9" ∉ (table_id <$> defaultTables)) as Hmiss
    by decide_by_computation.
  split; [by left|].
  exact (assignGuest_no_match_unchanged "t9" "t1c1" (Some "g1") defaultTables
           (or_introl Hmiss)).
Defined.

Lemma unassignGuestEverywhere_cleared g prev :
  Forall2 (table_cleared g) prev (unassignGuestEverywhere g prev).
Proof.
  unfold unassignGuestEverywhere. apply Forall2_fmap_r, Forall_Forall2_diag.
  apply Forall_forall. intros t _.
  unfold table_cleared; cbn. repeat split.
  apply Forall2_fmap_r, Forall_Forall2_diag, Forall_forall. intros c _.
  unfold cleared, compose. case_bool_decide; by split.
Qed.

Lemma unassignGuestEverywhere_idempotent g prev :
  unassignGuestEverywhere g (unassignGuestEverywhere g prev)
  = unassignGuestEverywhere g prev.
Proof.
  unfold unassignGuestEverywhere.
  rewrite <- list_fmap_compose. apply list_fmap_ext. intros _ t _. cbn.
  f_equal. rewrite <- list_fmap_compose. apply list_fmap_ext. intros _ c _. cbn.
  case_bool_decide as H1; cbn.
  - by case_bool_decide.
  - done.
Qed.

(** C10: [unassignGuestEverywhere(g)] keeps the number and order of the
    tables, every field of a table other than [chairs], and the number, order
    and identity of the chairs; a chair loses its guest reference exactly when
    that reference is [g]; and doing it twice is the same as doing it once. *)
Theorem unassignGuestEverywhere_frame_idempotent g prev :
  Forall2 (table_cleared g) prev (unassignGuestEverywhere g prev)
  /\ unassignGuestEverywhere g (unassignGuestEverywhere g prev)
     = unassignGuestEverywhere g prev.
Proof.
  split.
  - apply unassignGuestEverywhere_cleared.
  - apply unassignGuestEverywhere_idempotent.
Qed.

Lemma table_cleared_no_ref g t t' c :
  table_cleared g t t' -> c ∈ table_chairs t' -> chair_guestId c <> Some g.
Proof.
  intros (_ & _ & _ & _ & _ & _ & _ & _ & _ & Hc) Hin.
  apply list_elem_of_lookup_1 in Hin as [i Hi].
  destruct (Forall2_lookup_r _ _ _ _ _ Hc Hi) as (c0 & _ & _ & Hg).
  rewrite Hg. case_bool_decide; congruence.
Qed.

(** C4: [removeGuest(g)] leaves no guest with id [g] in the guest list and
    keeps every other guest, in order; every chair that referenced [g] holds
    no guest afterwards, no chair references [g], and every other chair and
    every other field of the tables is unchanged. *)
Theorem removeGuest_clears_seat_and_list g p :
  let p' := removeGuest g p in
  guests p' = filter (fun x => guest_id x <> g) (guests p)
  /\ (g ∉ guest_id <$> guests p')
  /\ (forall x, guest_id x <> g -> (x ∈ guests p' <-> x ∈ guests p))
  /\ sublist (guests p') (guests p)
  /\ Forall2 (table_cleared g) (tables p) (tables p')
  /\ (forall t c, t ∈ tables p' -> c ∈ table_chairs t -> chair_guestId c <> Some g).
Proof.
  cbn. repeat split.
  - intros Hin. apply list_elem_of_fmap in Hin as (x & Hx & Hin).
    apply list_elem_of_filter in Hin as [Hne _]. congruence.
  - intros Hin. by apply list_elem_of_filter in Hin as [_ ?].
  - intros Hin. by apply list_elem_of_filter.
  - apply sublist_filter.
  - apply unassignGuestEverywhere_cleared.
  - intros t c Ht Hc.
    apply list_elem_of_lookup_1 in Ht as [i Hi].
    destruct (Forall2_lookup_r _ _ _ _ _
                (unassignGuestEverywhere_cleared g (tables p)) Hi)
      as (t0 & _ & Hcl).
    by eapply table_cleared_no_ref.
Qed.

(** *** One seat per guest *)

Section OneSeat.

Variables (tableId chairId g : string).

Lemma assign_seat_miss (l : list (string * Chair)) :
  (tableId, chairId) ∉ (seat_key <$> l) ->
  assign_seat tableId chairId (Some g) <$> l = l.
Proof.
  intros Hn. apply fmap_fixed. intros [tid c] Hin.
  unfold assign_seat, assign_chair; cbn.
  case_bool_decide as Hm; [|done].
  destruct Hm as [Ht Hc]. exfalso. apply Hn.
  apply list_elem_of_fmap. exists (tid, c). split; [|done].
  unfold seat_key; cbn. by rewrite Ht, Hc.
Qed.

Lemma refs_assign_seat_from (l : list (string * Chair)) x :
  x ∈ omap seat_ref (assign_seat tableId chairId (Some g) <$> l) ->
  x = g \/ x ∈ omap seat_ref l.
Proof.
  intros Hin. apply list_elem_of_omap in Hin as (tc' & Hin & Hx).
  apply list_elem_of_fmap in Hin as ([tid c] & -> & Hin).
  unfold seat_ref, assign_seat, assign_chair in Hx; cbn in Hx.
  case_bool_decide as Hm.
  - left. unfold chair_ref in Hx; cbn in Hx.
    destruct (negb (String.eqb g EmptyString)); congruence.
  - right. apply list_elem_of_omap. by exists (tid, c).
Qed.

Lemma NoDup_refs_assign_seat (l : list (string * Chair)) :
  NoDup (omap seat_ref l) -> NoDup (seat_key <$> l) -> g ∉ omap seat_ref l ->
  NoDup (omap seat_ref (assign_seat tableId chairId (Some g) <$> l)).
Proof.
  induction l as [|[tid c] l IH]; intros Hrefs Hkeys Hg; [constructor|].
  rewrite fmap_cons in Hkeys. apply NoDup_cons in Hkeys as [Hk Hkeys].
  assert (NoDup (omap seat_ref l) /\ (g ∉ omap seat_ref l)
          /\ forall r, seat_ref (tid, c) = Some r ->
                       r <> g /\ r ∉ omap seat_ref l)
    as (Hrl & Hgl & Hhd).
  { cbn in Hrefs, Hg. destruct (seat_ref (tid, c)) as [r|] eqn:Hr.
    - apply NoDup_cons in Hrefs as [? ?].
      apply not_elem_of_cons in Hg as [? ?].
      repeat split; try done; congruence.
    - repeat split; try done. }
  rewrite fmap_cons. unfold assign_seat at 1, assign_chair; cbn.
  case_bool_decide as Hm.
  - destruct Hm as [Ht Hc].
    replace (seat_key (tid, c)) with (tableId, chairId) in Hk
      by (unfold seat_key; cbn; by rewrite Ht, Hc).
    rewrite assign_seat_miss by done.
    unfold seat_ref at 1, chair_ref; cbn.
    destruct (negb (String.eqb g EmptyString)); [|done].
    by apply NoDup_cons.
  - fold (seat_ref (tid, c)). destruct (seat_ref (tid, c)) as [r|] eqn:Hr.
    + destruct (Hhd r eq_refl) as [Hne Hnin].
      apply NoDup_cons. split; [|by apply IH].
      intros Hin. apply refs_assign_seat_from in Hin as [?|?]; done.
    + by apply IH.
Qed.

End OneSeat.

(** The guests the controller passes to [assignGuest] are unassigned. *)
Lemma offered_guests_unassigned p g :
  g ∈ popover_guests p \/ g ∈ card_guests p -> g ∈ unassignedGuests p.
Proof.
  unfold popover_guests, card_guests.
  intros [H|H]; apply elem_of_take in H as (i & Hi & _);
    by eapply list_elem_of_lookup_2.
Qed.



(** [assignGuest] called on its own with a guest who is seated, a call that
    no handler of the page makes: in the initial plan g1 sits on chair t1c1;
    after [assignGuest("t1", "t1c5", "g1")] chair t1c1 still holds g1 and
    chair t1c5 holds g1 as well. *)
Lemma assignGuest_does_not_clear_prior_seat :
  let next := assignGuest "t1" "t1c5" (Some "g1") defaultTables in
  all_chairs defaultTables !! 0
    = Some ("t1", {| chair_id := "t1c1"; chair_guestId := Some "g1" |})
  /\ all_chairs next !! 0
     = Some ("t1", {| chair_id := "t1c1"; chair_guestId := Some "g1" |})
  /\ all_chairs next !! 4
     = Some ("t1", {| chair_id := "t1c5"; chair_guestId := Some "g1" |})
  /\ ~ NoDup (seat_refs next).
Proof.
  cbn zeta. repeat split; try (vm_compute; reflexivity).
  apply (bool_decide_eq_false_1 _). vm_compute. reflexivity.
Qed.


(** ** Shrinking a table *)

Lemma refs_of_empty_chairs add :
  Forall (fun c => chair_guestId c = None) add -> refs_of_chairs add = [].
Proof.
  induction 1 as [|c cs Hc _ IH]; [done|].
  unfold refs_of_chairs in *. cbn. unfold chair_ref at 1. by rewrite Hc, IH.
Qed.

Lemma resized_refs tableId count t t' :
  resized tableId count t t' ->
  refs_of_chairs (table_chairs t') = refs_of_chairs (retained tableId count t).
Proof.
  unfold resized, retained. case_bool_decide; [|by intros ->].
  intros (add & -> & _ & Hadd). cbn. unfold refs_of_chairs.
  rewrite omap_app. fold (refs_of_chairs add).
  rewrite (refs_of_empty_chairs add) by done. by rewrite app_nil_r.
Qed.

Lemma seat_refs_resized tableId count prev next :
  Forall2 (resized tableId count) prev next ->
  seat_refs next = prev ≫= fun t => refs_of_chairs (retained tableId count t).
Proof.
  unfold seat_refs. induction 1 as [|t t' r r' Ht _ IH]; [done|].
  cbn. by rewrite IH, (resized_refs _ _ _ _ Ht).
Qed.

Section Shrink.

Variable random_hex : nat -> string.
Variable now_hex : nat -> string.

Lemma plan_setChairsCount_tables tableId count p k :
  tables (plan_setChairsCount random_hex now_hex tableId count p k).1
  = (setChairsCount random_hex now_hex tableId count (tables p) k).1.
Proof.
  unfold plan_setChairsCount, gbind, gret.
  by destruct (setChairsCount _ _ _ _ _ k).
Qed.

Lemma plan_setChairsCount_guests tableId count p k :
  guests (plan_setChairsCount random_hex now_hex tableId count p k).1 = guests p.
Proof.
  unfold plan_setChairsCount, gbind, gret.
  by destruct (setChairsCount _ _ _ _ _ k).
Qed.

Lemma shrink_truncates tableId count prev k :
  Forall2
    (fun t t' =>
       if bool_decide (table_id t = tableId) then
         (clamp count 2 20 < Z.of_nat (length (table_chairs t)))%Z ->
         t' = with_chairs t (take (Z.to_nat (clamp count 2 20)) (table_chairs t))
       else t' = t)
    prev (setChairsCount random_hex now_hex tableId count prev k).1.
Proof.
  eapply Forall2_impl; [apply setChairsCount_resized|].
  intros t t'. unfold resized. case_bool_decide; [|done].
  intros (add & -> & Hlen & _) Hlt.
  assert (add = []) as -> by (apply nil_length_inv; lia).
  by rewrite app_nil_r.
Qed.

Lemma unassigned_after_setChairsCount tableId count p k g :
  g ∈ unassignedGuests (plan_setChairsCount random_hex now_hex tableId count p k).1
  <-> g ∈ guests p
      /\ guest_id g ∉ tables p ≫= fun t => refs_of_chairs (retained tableId count t).
Proof.
  rewrite unassignedGuests_spec, plan_setChairsCount_guests,
    plan_setChairsCount_tables.
  by rewrite (seat_refs_resized tableId count (tables p))
    by apply setChairsCount_resized.
Qed.

End Shrink.

(** C3 (amended): shrinking a table with [setChairsCount] keeps the first
    [clamp(count, 2, 20)] chairs as they are, identities and guests in order,
    and drops the rest; the guest list is unchanged; afterwards the
    unassigned pool holds exactly the guests referenced by no retained chair
    of any table, so a guest who sat on a removed chair is in the pool unless
    a retained chair (of this or of another table) references the same
    guest. In the initial plan, shrinking table 1 from 8 chairs (4 assigned)
    to 3 leaves its first three chairs as they were and moves g4, and only
    g4, to the pool. *)
Theorem setChairsCount_shrink_truncates_and_unassigns
    (random_hex now_hex : nat -> string) tableId count p k :
  let p' := (plan_setChairsCount random_hex now_hex tableId count p k).1 in
  let kept := tables p ≫= fun t => refs_of_chairs (retained tableId count t) in
  let dropped := tables p ≫= fun t => refs_of_chairs (removed tableId count t) in
  Forall2
    (fun t t' =>
       if bool_decide (table_id t = tableId) then
         (clamp count 2 20 < Z.of_nat (length (table_chairs t)))%Z ->
         t' = with_chairs t (take (Z.to_nat (clamp count 2 20)) (table_chairs t))
       else t' = t)
    (tables p) (tables p')
  /\ guests p' = guests p
  /\ (forall g, g ∈ unassignedGuests p' <-> g ∈ guests p /\ guest_id g ∉ kept)
  /\ (forall g, g ∈ guests p -> guest_id g ∈ dropped -> guest_id g ∉ kept ->
                g ∈ unassignedGuests p' /\ g ∈ guests p')
  /\ (let d := (plan_setChairsCount random_hex now_hex "t1" 3 defaultPlan k).1 in
      unassignedGuests defaultPlan = []
      /\ table_chairs <$> tables d !! 0 = Some (default_chairs "t1" 3 4 1)
      /\ unassignedGuests d = [mkGuest "g4" "Liam Jones" male]).
Proof.
  cbn zeta. split_and!.
  - rewrite plan_setChairsCount_tables. apply shrink_truncates.
  - apply plan_setChairsCount_guests.
  - intros g. apply unassigned_after_setChairsCount.
  - intros g Hg _ Hkept. split.
    + by apply unassigned_after_setChairsCount.
    + by rewrite plan_setChairsCount_guests.
  - by vm_compute.
  - by vm_compute.
  - by vm_compute.
Qed.

(** C3 as stated fails when another chair references the same guest, which
    [duplicateTable] brings about: duplicate table 1 of the initial plan
    (the copy seats g1 to g4 again), then shrink the copy to 3 chairs. The
    fourth chair of the copy, which held g4, is removed, yet g4 is not in the
    unassigned pool: table 1 still seats g4. *)
Lemma shrink_after_duplicate_keeps_guest_assigned :
  let ts1 := (duplicateTable sample_random sample_now true "t1" defaultTables 0).1 in
  let dup := "t_8f3a9c0_18c2d4e5f60" in
  let p2 := (plan_setChairsCount sample_random sample_now dup 3
               {| guests := defaultGuests; tables := ts1 |} 1).1 in
  let g4 := mkGuest "g4" "Liam Jones" male in
  (table_id <$> ts1) = ["t1"; "t2"; "t3"; dup]
  /\ all_chairs ts1 !! 33
     = Some (dup, {| chair_id := dup +:+ "c4"; chair_guestId := Some "g4" |})
  /\ length (all_chairs (tables p2)) = 33
  /\ g4 ∈ guests p2
  /\ g4 ∉ unassignedGuests p2.
Proof.
  cbn zeta. repeat split; try (vm_compute; reflexivity).
  - decide_by_computation.
  - decide_by_computation.
Qed.

(** ** Chair geometry *)

Section GeometryFacts.
Local Open Scope R_scope.

Lemma perSide_of_is_ceiling (total : nat) :
  INR (perSide_of total) - 1 < INR total / 4 <= INR (perSide_of total).
Proof.
  unfold perSide_of.
  pose proof (Nat.div_mod (total + 3) 4 ltac:(lia)) as Hdm.
  pose proof (Nat.mod_upper_bound (total + 3) 4 ltac:(lia)) as Hr.
  set (q := ((total + 3) / 4)%nat) in *.
  set (r := ((total + 3) mod 4)%nat) in *.
  assert (INR total + 3 = 4 * INR q + INR r) as Heq.
  { apply (f_equal INR) in Hdm.
    rewrite !plus_INR, mult_INR in Hdm. simpl in Hdm. lra. }
  assert (0 <= INR r <= 3) as Hb.
  { split; [apply pos_INR|].
    replace 3 with (INR 3) by (simpl; lra). apply le_INR. lia. }
  lra.
Qed.

Lemma side_of_lt_4 (index total : nat) :
  (index < total)%nat -> (side_of index total < 4)%nat.
Proof.
  intros Hi. unfold side_of, perSide_of.
  apply Nat.Div0.div_lt_upper_bound.
  pose proof (Nat.div_mod (total + 3) 4 ltac:(lia)) as Hdm.
  pose proof (Nat.mod_upper_bound (total + 3) 4 ltac:(lia)) as Hr.
  lia.
Qed.

(** The round table: the seat marker and the decoration agree with
    [ChairDot] at radius 70. *)
Lemma round_marker_is_ChairDot (t : TableModel) (i : nat) :
  table_shape t = round ->
  seat_marker t i = ChairDot i (length (table_chairs t)) 70 (table_rotation t)
  /\ chair_decoration t i
     = ChairDot i (length (table_chairs t)) 70 (table_rotation t).
Proof.
  intros Hs. unfold seat_marker, chair_decoration, ChairDot. by rewrite Hs.
Qed.

Lemma ChairDot_on_circle index total radius rotation :
  (ChairDot index total radius rotation).1 ^ 2
  + (ChairDot index total radius rotation).2 ^ 2 = radius ^ 2.
Proof.
  unfold ChairDot; cbn [fst snd].
  set (a := PI * 2 / INR total * INR index + rotation).
  pose proof (sin2_cos2 a) as H. unfold Rsqr in H.
  replace ((cos a * radius) ^ 2 + (sin a * radius) ^ 2)
    with ((sin a * sin a + cos a * cos a) * radius ^ 2) by ring.
  rewrite H. ring.
Qed.

Lemma ChairDot_8_0 : ChairDot 0 8 70 0 = (70, 0).
Proof.
  unfold ChairDot.
  replace (PI * 2 / INR 8 * INR 0 + 0) with 0 by (simpl; field).
  rewrite cos_0, sin_0. f_equal; ring.
Qed.

Lemma ChairDot_8_2 : ChairDot 2 8 70 0 = (0, 70).
Proof.
  unfold ChairDot.
  replace (PI * 2 / INR 8 * INR 2 + 0) with (PI / 2) by (simpl; field).
  rewrite cos_PI2, sin_PI2. f_equal; ring.
Qed.

End GeometryFacts.

Section TableGeometry.
Local Open Scope R_scope.

(** C5: on a round table with [n] chairs and rotation [r], chair [i] is at
    offset [(cos a * 70, sin a * 70)] with [a = (2 PI / n) * i + r], for the
    seat marker and for the decoration alike, hence at distance 70 from the
    centre; with 8 chairs and rotation 0, chair 0 is at [(70, 0)] and chair 2
    at [(0, 70)]. *)
Theorem round_table_chair_positions (t : TableModel) (i : nat)
    (Hround : table_shape t = round) :
  let n := length (table_chairs t) in
  let angle := 2 * PI / INR n * INR i + table_rotation t in
  seat_marker t i = (cos angle * 70, sin angle * 70)
  /\ chair_decoration t i = (cos angle * 70, sin angle * 70)
  /\ (seat_marker t i).1 ^ 2 + (seat_marker t i).2 ^ 2 = 70 ^ 2
  /\ (n = 8%nat -> table_rotation t = 0 ->
      seat_marker t 0 = (70, 0) /\ seat_marker t 2 = (0, 70)).
Proof.
  cbn zeta.
  assert (forall j, seat_marker t j
                    = ChairDot j (length (table_chairs t)) 70 (table_rotation t))
    as Hm by (intros j; by apply round_marker_is_ChairDot).
  assert (ChairDot i (length (table_chairs t)) 70 (table_rotation t)
          = (cos (2 * PI / INR (length (table_chairs t)) * INR i + table_rotation t) * 70,
             sin (2 * PI / INR (length (table_chairs t)) * INR i + table_rotation t) * 70))
    as Hd.
  { unfold ChairDot.
    by replace (PI * 2 / INR (length (table_chairs t)) * INR i)
      with (2 * PI / INR (length (table_chairs t)) * INR i)
      by (unfold Rdiv; ring). }
  split_and!.
  - by rewrite Hm.
  - by rewrite (proj2 (round_marker_is_ChairDot t i Hround)).
  - rewrite Hm. apply ChairDot_on_circle.
  - intros Hn Hr. rewrite !Hm, Hn, Hr. split.
    + apply ChairDot_8_0.
    + apply ChairDot_8_2.
Qed.

Lemma round_table_chair_positions_witness :
  table_shape defaultTable1 = round
  /\ seat_marker defaultTable1 0 = (70, 0)
  /\ seat_marker defaultTable1 2 = (0, 70).
Proof.
  split; [reflexivity|].
  exact (proj2 (proj2 (proj2 (round_table_chair_positions defaultTable1 2 eq_refl)))
           eq_refl eq_refl).
Defined.

Lemma ChairRect_on_edge index total w h :
  ChairRect index total w h
  = lerp (edge_start (side_of index total) w h)
         (edge_end (side_of index total) w h) (t_of index total).
Proof.
  unfold ChairRect, lerp.
  destruct (side_of index total) as [|[|[|s]]]; cbn; f_equal; lra.
Qed.

Lemma rect_marker_offset (t : TableModel) (i : nat) :
  table_shape t = rect ->
  let side := side_of i (length (table_chairs t)) in
  seat_marker t i
  = ((chair_decoration t i).1 + 18 * (outward side).1,
     (chair_decoration t i).2 + 18 * (outward side).2).
Proof.
  intros Hs. unfold seat_marker, chair_decoration, ChairRect. rewrite Hs.
  cbn zeta.
  destruct (side_of i (length (table_chairs t))) as [|[|[|s]]]; cbn; f_equal; lra.
Qed.

Lemma t_of_12 j : t_of j 12 = INR (j mod 3) / 2.
Proof.
  unfold t_of, posOnSide_of. change (perSide_of 12) with 3%nat.
  cbn [Nat.leb]. f_equal. simpl. lra.
Qed.

Lemma twelve_chairs_three_per_side s :
  (s < 4)%nat ->
  filter (fun j => side_of j 12 = s) (seq 0 12) = [3 * s; 3 * s + 1; 3 * s + 2]%nat
  /\ t_of (3 * s) 12 = 0
  /\ t_of (3 * s + 2) 12 = 1
  /\ ChairRect (3 * s) 12 126 74 = edge_start s 126 74
  /\ ChairRect (3 * s + 2) 12 126 74 = edge_end s 126 74.
Proof.
  intros Hs.
  assert (t_of (3 * s) 12 = 0 /\ t_of (3 * s + 2) 12 = 1) as [H0 H1].
  { rewrite !t_of_12.
    replace ((3 * s) mod 3)%nat with 0%nat
      by (symmetry; rewrite Nat.mul_comm; apply Nat.Div0.mod_mul).
    replace ((3 * s + 2) mod 3)%nat with 2%nat.
    - simpl. lra.
    - rewrite Nat.add_comm, Nat.mul_comm, Nat.Div0.mod_add. done. }
  assert (side_of (3 * s) 12 = s /\ side_of (3 * s + 2) 12 = s) as [Hs0 Hs2].
  { unfold side_of. change (perSide_of 12) with 3%nat.
    split.
    - rewrite Nat.mul_comm. by apply Nat.div_mul.
    - rewrite Nat.add_comm, Nat.mul_comm, Nat.div_add by done. done. }
  split_and!; try done.
  - destruct s as [|[|[|[|s]]]]; try lia; by vm_compute.
  - rewrite ChairRect_on_edge, Hs0, H0. unfold lerp.
    destruct (edge_start s 126 74), (edge_end s 126 74); cbn. f_equal; lra.
  - rewrite ChairRect_on_edge, Hs2, H1. unfold lerp.
    destruct (edge_start s 126 74), (edge_end s 126 74); cbn. f_equal; lra.
Qed.

(** C6: on a rectangular table (footprint 126 by 74) with [n] chairs, chair
    [i] lies on side [floor(i / ceil(n/4))], one of four, at the fraction
    [t = (i mod ceil(n/4)) / (ceil(n/4) - 1)] (0.5 when [ceil(n/4) <= 1])
    of the way along that side's edge; the decoration sits on the edge and the
    seat marker 18 units further out; neither depends on the rotation of the
    table; with 12 chairs there are 3 chairs per side, the first at [t = 0]
    and the last at [t = 1], on the two corners of the side. *)
Theorem rect_table_chair_positions (t : TableModel) (i : nat)
    (Hrect : table_shape t = rect)
    (Hi : (i < length (table_chairs t))%nat) :
  let n := length (table_chairs t) in
  let perSide := perSide_of n in
  let side := (i / perSide)%nat in
  let posOnSide := (i mod perSide)%nat in
  let tt := if (perSide <=? 1)%nat then 0.5
            else INR posOnSide / (INR perSide - 1) in
  INR perSide - 1 < INR n / 4 <= INR perSide
  /\ (side < 4)%nat
  /\ chair_decoration t i
     = lerp (edge_start side 126 74) (edge_end side 126 74) tt
  /\ seat_marker t i
     = ((chair_decoration t i).1 + 18 * (outward side).1,
        (chair_decoration t i).2 + 18 * (outward side).2)
  /\ (forall r,
        seat_marker (with_rotation t r) i = seat_marker t i
        /\ chair_decoration (with_rotation t r) i = chair_decoration t i)
  /\ (n = 12%nat ->
      perSide = 3%nat
      /\ forall s, (s < 4)%nat ->
           filter (fun j => side_of j n = s) (seq 0 n)
             = [3 * s; 3 * s + 1; 3 * s + 2]%nat
           /\ t_of (3 * s) n = 0
           /\ t_of (3 * s + 2) n = 1
           /\ chair_decoration t (3 * s) = edge_start s 126 74
           /\ chair_decoration t (3 * s + 2) = edge_end s 126 74).
Proof.
  cbn zeta. split_and!.
  - apply perSide_of_is_ceiling.
  - apply perSide_of_is_ceiling.
  - by apply side_of_lt_4.
  - unfold chair_decoration. rewrite Hrect. apply ChairRect_on_edge.
  - by apply rect_marker_offset.
  - intros r. unfold seat_marker, chair_decoration; cbn. by rewrite Hrect.
  - intros Hn. rewrite Hn. split; [done|].
    intros s Hs. unfold chair_decoration. rewrite Hrect, Hn.
    by apply twelve_chairs_three_per_side.
Qed.

Lemma rect_table_chair_positions_witness :
  table_shape defaultTable3 = rect
  /\ (2 < length (table_chairs defaultTable3))%nat
  /\ chair_decoration defaultTable3 (3 * 0 + 2) = edge_end 0 126 74.
Proof.
  assert (2 < length (table_chairs defaultTable3))%nat as Hi
    by (vm_compute; lia).
  split_and!; [reflexivity | exact Hi |].
  destruct (rect_table_chair_positions defaultTable3 2 eq_refl Hi)
    as (_ & _ & _ & _ & _ & H12).
  destruct (H12 eq_refl) as [_ Hsides].
  exact (proj2 (proj2 (proj2 (proj2 (Hsides 0%nat ltac:(lia)))))).
Defined.

End TableGeometry.

(** ** Tables in order of number *)

Lemma insert_by_number_Permutation t l : insert_by_number t l ≡ₚ t :: l.
Proof.
  induction l as [|u r IH]; cbn; [done|].
  case_bool_decide; [|done].
  rewrite IH. apply Permutation_swap.
Qed.

Lemma sort_by_number_Permutation ts : sort_by_number ts ≡ₚ ts.
Proof.
  induction ts as [|t r IH]; cbn; [done|].
  by rewrite insert_by_number_Permutation, IH.
Qed.

Lemma HdRel_insert_by_number x t l :
  by_number x t -> HdRel by_number x l ->
  HdRel by_number x (insert_by_number t l).
Proof.
  intros Hx Hl. destruct Hl as [|u r Hu]; cbn; [by constructor|].
  case_bool_decide; by constructor.
Qed.

Lemma Sorted_insert_by_number t l :
  Sorted by_number l -> Sorted by_number (insert_by_number t l).
Proof.
  induction 1 as [|u r Hr IH Hu]; cbn.
  - by repeat constructor.
  - case_bool_decide as Hlt.
    + constructor; [done|].
      apply HdRel_insert_by_number; [unfold by_number; lia | done].
    + constructor; [by constructor|].
      constructor. unfold by_number. lia.
Qed.

Lemma Sorted_sort_by_number ts : Sorted by_number (sort_by_number ts).
Proof.
  induction ts as [|t r IH]; cbn; [constructor|].
  by apply Sorted_insert_by_number.
Qed.



(** ** CSV export *)

Lemma csv_rows_by_table p :
  csv_rows p
  = csv_headers
    :: (sort_by_number (tables p) ≫= table_rows (guests p))
    ++ (unassigned_row <$> unassignedGuests p).
Proof.
  unfold csv_rows, guestsByTable. do 2 f_equal.
  rewrite list_fmap_bind. apply list_bind_ext; [|done].
  intros t. unfold compose, table_rows; cbn.
  rewrite fmap_imap. by apply imap_ext.
Qed.








Example escapeCsvCell_plain : escapeCsvCell "Ava Johnson" = "Ava Johnson".
Proof. reflexivity. Qed.

Example escapeCsvCell_comma_and_quote :
  escapeCsvCell ("Johnson, " +:+ String dquote ("Ava" +:+ String dquote EmptyString))
  = String dquote
      ("Johnson, " +:+ String dquote (String dquote
         ("Ava" +:+ String dquote (String dquote (String dquote EmptyString))))).
Proof. reflexivity. Qed.

(** ** Saving and loading a version *)

(** *** On the device *)

Lemma local_save_then_load calc id savedAt name p stageSize pan prev :
  loadLocalVersion calc id (saveLocalVersion id savedAt name p stageSize pan prev)
  = Some (p, stageSize, pan).
Proof.
  unfold loadLocalVersion, saveLocalVersion. cbn.
  rewrite decide_True by done. by destruct p.
Qed.

(** *** On the server *)

Section VersionStoreFacts.

Variable trim : string -> string.

Lemma saved_version_fields env body fs gs ts :
  Server.field "guests" body = Some (Server.JArr gs) ->
  Server.field "tables" body = Some (Server.JArr ts) ->
  Server.env_fs_error env = None ->
  Server.isValidId (Server.env_uuid env) = true ->
  exists meta fs' v,
    Server.post_versions trim env body fs = (Server.Created meta, fs')
    /\ Server.get_version (Server.env_uuid env) fs' = Server.OkJson v
    /\ Server.field "guests" (Some v) = Some (Server.JArr gs)
    /\ Server.field "tables" (Some v) = Some (Server.JArr ts)
    /\ Server.field "stageSize" (Some v) = None
    /\ Server.field "pan" (Some v) = None.
Proof.
  intros Hg Ht Hfs Hid.
  unfold Server.post_versions, Server.saveVersion. rewrite Hg, Ht, Hfs.
  eexists _, _, _. split; [reflexivity|].
  unfold Server.get_version, Server.getVersion. rewrite Hid. cbn [negb].
  rewrite lookup_insert_eq. split_and!; reflexivity.
Qed.

End VersionStoreFacts.

(** C7 on the server: the body posted by the page carries [stageSize] and
    [pan]; the version is created (201) and can be read back with the
    guests and tables of the body, but with neither [stageSize] nor [pan]:
    the handler passes only [name], [guests] and [tables] on, and
    [saveVersion] writes only those. *)
Theorem server_version_drops_stage_and_pan (trim : string -> string) :
  let body := Some sample_body in
  exists meta fs v,
    Server.post_versions trim sample_env body ∅ = (Server.Created meta, fs)
    /\ Server.status (Server.Created meta) = 201
    /\ Server.get_version (Server.env_uuid sample_env) fs = Server.OkJson v
    /\ Server.field "guests" (Some v) = Server.field "guests" body
    /\ Server.field "tables" (Some v) = Server.field "tables" body
    /\ Server.field "stageSize" body
       = Some (Server.JObj [("w", Server.JNum 1000); ("h", Server.JNum 650)])
    /\ Server.field "pan" body
       = Some (Server.JObj [("x", Server.JNum 12); ("y", Server.JNum (-8))])
    /\ Server.field "stageSize" (Some v) = None
    /\ Server.field "pan" (Some v) = None.
Proof.
  cbn zeta.
  destruct (saved_version_fields trim sample_env (Some sample_body) ∅
              (Server.guest_json <$> guests defaultPlan)
              (Server.table_json <$> tables defaultPlan))
    as (meta & fs & v & Hpost & Hget & Hg & Ht & Hs & Hp); try reflexivity.
  exists meta, fs, v. split_and!; try done.
Qed.

(** * Further properties *)

(** ** Chair count, again *)

Lemma gmapM_fixed {A} (f : A -> Gen A) (l : list A) :
  (forall x, x ∈ l -> forall k, f x k = (x, k)) ->
  forall k, gmapM f l k = (l, k).
Proof.
  induction l as [|x r IH]; intros Hf k; [done|].
  cbn. unfold gbind, gret.
  rewrite (Hf x) by left. rewrite IH; [done|].
  intros y Hy. apply Hf. by right.
Qed.

Section ChairCountAgain.

Variable random_hex : nat -> string.
Variable now_hex : nat -> string.

Lemma setChairsCount_table_settled tableId count t k :
  (table_id t = tableId ->
   Z.of_nat (length (table_chairs t)) = clamp count 2 20) ->
  setChairsCount_table random_hex now_hex tableId count t k = (t, k).
Proof.
  intros H. unfold setChairsCount_table.
  case_bool_decide as Hid; [|done]. cbn.
  by rewrite bool_decide_eq_true_2 by auto.
Qed.

(** X1: [setChairsCount] applied to its own result with the same arguments
    returns that result unchanged and makes no call of [uid]. *)
Theorem setChairsCount_again_no_change tableId count prev k k' :
  let next := (setChairsCount random_hex now_hex tableId count prev k).1 in
  setChairsCount random_hex now_hex tableId count next k' = (next, k').
Proof.
  cbn zeta. apply gmapM_fixed. intros t' Ht' k0.
  apply setChairsCount_table_settled. intros Hid.
  apply list_elem_of_lookup_1 in Ht' as [i Hi].
  destruct (Forall2_lookup_r _ _ _ _ _
              (setChairsCount_resized random_hex now_hex tableId count prev k) Hi)
    as (t & _ & Hr).
  assert (table_id t = tableId) as Hid0.
  { unfold resized in Hr. case_bool_decide as Ht; [done|]. by subst t'. }
  by eapply resized_length.
Qed.

Lemma retained_all_refs tableId count (l : list TableModel) :
  Forall (fun t => retained tableId count t = table_chairs t) l ->
  l ≫= (fun t => refs_of_chairs (retained tableId count t)) = seat_refs l.
Proof.
  unfold seat_refs. induction 1 as [|t r Ht _ IH]; [done|].
  cbn. by rewrite Ht, IH.
Qed.

Lemma resized_all_retained tableId count (l next : list TableModel) :
  Forall (fun t => retained tableId count t = table_chairs t) l ->
  Forall2 (resized tableId count) l next ->
  Forall2
    (fun t t' =>
       exists add, t' = with_chairs t (table_chairs t ++ add)
                   /\ Forall (fun c => chair_guestId c = None) add)
    l next.
Proof.
  intros Hret Hres. induction Hres as [|t t' r r' Hr _ IH]; [constructor|].
  apply Forall_cons in Hret as [Ht Hret]. constructor; [|by apply IH].
  unfold resized, retained in *. case_bool_decide.
  - destruct Hr as (add & -> & _ & Hadd). exists add. by rewrite Ht.
  - subst t'. exists []. rewrite app_nil_r, with_chairs_same.
    split; [done|constructor].
Qed.

(** X2: when no targeted table has more chairs than the clamped count, every
    table keeps its chairs as a prefix of the new ones, the added chairs hold
    no guest, and the guest references and the unassigned pool are
    unchanged. *)
Theorem setChairsCount_grow_keeps_assignments tableId count p k
    (Hgrow : forall t, t ∈ tables p -> table_id t = tableId ->
                       (Z.of_nat (length (table_chairs t)) <= clamp count 2 20)%Z) :
  let p' := (plan_setChairsCount random_hex now_hex tableId count p k).1 in
  Forall2
    (fun t t' =>
       exists add, t' = with_chairs t (table_chairs t ++ add)
                   /\ Forall (fun c => chair_guestId c = None) add)
    (tables p) (tables p')
  /\ seat_refs (tables p') = seat_refs (tables p)
  /\ unassignedGuests p' = unassignedGuests p.
Proof.
  cbn zeta.
  assert (Forall (fun t => retained tableId count t = table_chairs t) (tables p))
    as Hret.
  { apply Forall_forall. intros t Ht. unfold retained.
    case_bool_decide as Hid; [|done].
    apply firstn_all2. specialize (Hgrow t Ht Hid). lia. }
  assert (seat_refs (tables (plan_setChairsCount random_hex now_hex tableId
                               count p k).1) = seat_refs (tables p)) as Hrefs.
  { rewrite plan_setChairsCount_tables.
    rewrite (seat_refs_resized tableId count (tables p))
      by apply setChairsCount_resized.
    by apply retained_all_refs. }
  split_and!; [|done|].
  - rewrite plan_setChairsCount_tables.
    apply (resized_all_retained tableId count); [done|].
    apply setChairsCount_resized.
  - unfold unassignedGuests. rewrite plan_setChairsCount_guests.
    apply list_filter_iff. intros g. by rewrite !assigned_spec, Hrefs.
Qed.

End ChairCountAgain.

Lemma setChairsCount_grow_keeps_assignments_witness :
  (forall t, t ∈ tables defaultPlan -> table_id t = "t1" ->
             (Z.of_nat (length (table_chairs t)) <= clamp 10 2 20)%Z)
  /\ unassignedGuests
       (plan_setChairsCount sample_random sample_now "t1" 10 defaultPlan 0).1
     = unassignedGuests defaultPlan.
Proof.
  assert (forall t, t ∈ tables defaultPlan -> table_id t = "t1" ->
                    (Z.of_nat (length (table_chairs t)) <= clamp 10 2 20)%Z)
    as Hgrow.
  { intros t Ht Hid. cbn in Ht.
    repeat (apply elem_of_cons in Ht as [->|Ht]); try (by vm_compute).
    by apply elem_of_nil in Ht. }
  split; [exact Hgrow|].
  exact (proj2 (proj2 (setChairsCount_grow_keeps_assignments
                         sample_random sample_now "t1" 10 defaultPlan 0 Hgrow))).
Defined.

(** ** Table numbers and new tables *)

Lemma foldl_max_number (ts : list TableModel) (acc : Z) :
  (acc <= foldl (fun m t => Z.max m (table_number t)) acc ts)%Z
  /\ Forall (fun t => (table_number t
                       <= foldl (fun m t => Z.max m (table_number t)) acc ts)%Z)
            ts.
Proof.
  revert acc. induction ts as [|t r IH]; intros acc; cbn.
  - split; [lia|constructor].
  - destruct (IH (Z.max acc (table_number t))) as [Hacc Hr].
    split; [lia|]. constructor; [lia|done].
Qed.

Lemma nextTableNumber_bounds ts :
  (1 <= nextTableNumber ts)%Z
  /\ Forall (fun t => (table_number t < nextTableNumber ts)%Z) ts
  /\ nextTableNumber ts ∉ table_number <$> ts.
Proof.
  unfold nextTableNumber.
  destruct (foldl_max_number ts 0) as [H0 Hts].
  assert (Forall (fun t => (table_number t
            < foldl (fun m t => Z.max m (table_number t)) 0 ts + 1)%Z) ts) as Hlt.
  { eapply Forall_impl; [exact Hts|]. cbn. intros. lia. }
  split_and!; [lia|done|].
  intros Hin. apply list_elem_of_fmap in Hin as (t & Heq & Ht).
  rewrite Forall_forall in Hlt. specialize (Hlt t Ht). lia.
Qed.

Lemma foldl_max_number_upper (ts : list TableModel) (acc bound : Z) :
  (acc <= bound)%Z ->
  Forall (fun t => (table_number t <= bound)%Z) ts ->
  (foldl (fun m t => Z.max m (table_number t)) acc ts <= bound)%Z.
Proof.
  intros Hacc Hts. revert acc Hacc.
  induction Hts as [|t r Ht _ IH]; intros acc Hacc; cbn; [done|].
  apply IH. lia.
Qed.

(** X3: when every table has a number below 2^53, where the sum of the code
    is exact, [nextTableNumber] is at least 1, at most 2^53, and above the
    number of every table, so the number given to a new table is used by no
    table. *)
Theorem nextTableNumber_above_all ts
    (Hsafe : Forall (fun t => (table_number t < 2 ^ 53)%Z) ts) :
  (1 <= nextTableNumber ts <= 2 ^ 53)%Z
  /\ Forall (fun t => (table_number t < nextTableNumber ts)%Z) ts
  /\ nextTableNumber ts ∉ table_number <$> ts.
Proof.
  destruct (nextTableNumber_bounds ts) as (H1 & Hlt & Hnew).
  split_and!; try done.
  unfold nextTableNumber.
  pose proof (foldl_max_number_upper ts 0 (2 ^ 53 - 1)) as Hup.
  cut (foldl (fun m t => Z.max m (table_number t)) 0 ts <= 2 ^ 53 - 1)%Z; [lia|].
  apply Hup; [done|].
  eapply Forall_impl; [exact Hsafe|]. cbn. intros t Ht. lia.
Qed.

Lemma nextTableNumber_above_all_witness :
  Forall (fun t => (table_number t < 2 ^ 53)%Z) defaultTables
  /\ nextTableNumber defaultTables ∉ table_number <$> defaultTables.
Proof.
  assert (Forall (fun t => (table_number t < 2 ^ 53)%Z) defaultTables) as Hsafe
    by (repeat constructor).
  split; [exact Hsafe|].
  exact (proj2 (proj2 (nextTableNumber_above_all defaultTables Hsafe))).
Defined.

Lemma chair_names_NoDup (id : string) (n : nat) :
  NoDup ((fun i => id +:+ "c" +:+ pretty (i + 1)) <$> seq 0 n).
Proof.
  apply NoDup_fmap_2_strong; [|apply NoDup_seq].
  intros i j _ _ Heq.
  apply (inj (String.app id)) in Heq. apply (inj (String.app "c")) in Heq.
  apply (inj pretty) in Heq. lia.
Qed.

Lemma seat_refs_app ts1 ts2 :
  seat_refs (ts1 ++ ts2) = seat_refs ts1 ++ seat_refs ts2.
Proof. unfold seat_refs. apply bind_app. Qed.

Lemma seat_refs_singleton t : seat_refs [t] = refs_of_chairs (table_chairs t).
Proof. unfold seat_refs. cbn. apply app_nil_r. Qed.

Lemma refs_of_chairs_elem_of t ts x :
  t ∈ ts -> x ∈ refs_of_chairs (table_chairs t) -> x ∈ seat_refs ts.
Proof.
  intros Ht Hx. unfold seat_refs. apply list_elem_of_bind. by exists t.
Qed.

Lemma refs_of_chairs_guestIds cs cs' :
  chair_guestId <$> cs = chair_guestId <$> cs' ->
  refs_of_chairs cs = refs_of_chairs cs'.
Proof.
  revert cs'. induction cs as [|c cs IH]; intros [|c' cs'] Heq; try done.
  cbn in Heq. injection Heq as Hc Hcs.
  unfold refs_of_chairs in *. cbn.
  assert (chair_ref c = chair_ref c') as -> by (unfold chair_ref; by rewrite Hc).
  by rewrite (IH cs' Hcs).
Qed.

Section NewTables.

Variable random_hex : nat -> string.
Variable now_hex : nat -> string.

Lemma addTable_spec shape snapToGrid stageSize pan ts k :
  let next := (addTable random_hex now_hex shape snapToGrid stageSize pan ts k).1 in
  exists base,
    next = ts ++ [base]
    /\ table_id base = (uid random_hex now_hex "t" k).1
    /\ table_shape base = shape
    /\ Forall (fun t => (table_number t < table_number base)%Z) ts
    /\ length (table_chairs base) = match shape with rect => 12 | round => 8 end
    /\ Forall (fun c => chair_guestId c = None) (table_chairs base)
    /\ NoDup (chair_id <$> table_chairs base)
    /\ seat_refs next = seat_refs ts.
Proof.
  cbn zeta. unfold addTable, gbind, gret, uid. cbn.
  eexists. split; [reflexivity|]. cbn. split_and!; try done.
  - apply nextTableNumber_bounds.
  - by rewrite length_fmap, length_seq.
  - apply Forall_fmap, Forall_forall. by intros i _.
  - rewrite <- list_fmap_compose. apply chair_names_NoDup.
  - rewrite seat_refs_app, seat_refs_singleton. cbn.
    rewrite refs_of_empty_chairs; [by rewrite app_nil_r|].
    apply Forall_fmap, Forall_forall. by intros i _.
Qed.

(** X4: when every table has a number below 2^53, where the sum of the code
    is exact, [addTable(shape)] keeps the tables it finds and appends one
    table: its id is the one drawn from [uid], its number is
    [nextTableNumber], above every number in use, it has 8 chairs, or 12 when
    rectangular, with distinct ids and no guest; the guest references of the
    plan are unchanged. *)
Theorem addTable_appends_empty_table shape snapToGrid stageSize pan ts k
    (Hsafe : Forall (fun t => (table_number t < 2 ^ 53)%Z) ts) :
  let next := (addTable random_hex now_hex shape snapToGrid stageSize pan ts k).1 in
  exists base,
    next = ts ++ [base]
    /\ table_id base = (uid random_hex now_hex "t" k).1
    /\ table_shape base = shape
    /\ table_number base = nextTableNumber ts
    /\ (table_number base <= 2 ^ 53)%Z
    /\ Forall (fun t => (table_number t < table_number base)%Z) ts
    /\ length (table_chairs base) = match shape with rect => 12 | round => 8 end
    /\ Forall (fun c => chair_guestId c = None) (table_chairs base)
    /\ NoDup (chair_id <$> table_chairs base)
    /\ seat_refs next = seat_refs ts.
Proof.
  cbn zeta.
  destruct (addTable_spec shape snapToGrid stageSize pan ts k)
    as (base & Hnext & Hid & Hshape & Hlt & Hlen & Hempty & Hnd & Hrefs).
  assert (table_number base = nextTableNumber ts) as Hnum.
  { revert Hnext. unfold addTable, gbind, gret, uid. cbn.
    intros Heq. apply app_inj_tail in Heq as [_ <-]. done. }
  exists base. split_and!; try done.
  rewrite Hnum.
  pose proof (foldl_max_number_upper ts 0 (2 ^ 53 - 1)) as Hup.
  unfold nextTableNumber.
  cut (foldl (fun m t => Z.max m (table_number t)) 0 ts <= 2 ^ 53 - 1)%Z; [lia|].
  apply Hup; [done|].
  eapply Forall_impl; [exact Hsafe|]. cbn. intros t Ht. lia.
Qed.

Lemma duplicateTable_spec snapToGrid tableId ts k :
  let r := duplicateTable random_hex now_hex snapToGrid tableId ts k in
  match list_find (fun x => table_id x = tableId) ts with
  | None => r = (ts, k)
  | Some (_, t) =>
      exists copy,
        r = (ts ++ [copy], S k)
        /\ table_id copy = (uid random_hex now_hex "t" k).1
        /\ table_shape copy = table_shape t
        /\ table_rotation copy = table_rotation t
        /\ Forall (fun u => (table_number u < table_number copy)%Z) ts
        /\ chair_guestId <$> table_chairs copy = chair_guestId <$> table_chairs t
        /\ NoDup (chair_id <$> table_chairs copy)
        /\ seat_refs r.1 = seat_refs ts ++ refs_of_chairs (table_chairs t)
        /\ (refs_of_chairs (table_chairs t) <> [] -> ~ NoDup (seat_refs r.1))
  end.
Proof.
  cbn zeta. unfold duplicateTable.
  destruct (list_find _ ts) as [[i t]|] eqn:Hfind; [|done].
  apply list_find_Some in Hfind as (Hi & _ & _).
  apply list_elem_of_lookup_2 in Hi.
  unfold gbind, gret, uid. cbn.
  set (id := "t" +:+ "_" +:+ random_hex k +:+ "_" +:+ now_hex k).
  assert (chair_guestId <$>
            imap (fun i c => {| chair_id := id +:+ "c" +:+ pretty (i + 1);
                                chair_guestId := chair_guestId c |})
                 (table_chairs t)
          = chair_guestId <$> table_chairs t) as Hsame.
  { rewrite fmap_imap. unfold compose. cbn.
    rewrite (imap_ext _ (const chair_guestId)) by done. apply imap_const. }
  assert (refs_of_chairs
            (imap (fun i c => {| chair_id := id +:+ "c" +:+ pretty (i + 1);
                                 chair_guestId := chair_guestId c |})
                  (table_chairs t))
          = refs_of_chairs (table_chairs t)) as Hrefs.
  { by apply refs_of_chairs_guestIds. }
  eexists. split; [reflexivity|].
  match goal with
  | |- context [table_id ?c = _] => set (copy := c)
  end.
  change (table_chairs copy)
    with (imap (fun i c => {| chair_id := id +:+ "c" +:+ pretty (i + 1);
                              chair_guestId := chair_guestId c |})
               (table_chairs t)).
  change (ts ++ [copy], S k).1 with (ts ++ [copy]).
  rewrite seat_refs_app, seat_refs_singleton.
  change (table_chairs copy)
    with (imap (fun i c => {| chair_id := id +:+ "c" +:+ pretty (i + 1);
                              chair_guestId := chair_guestId c |})
               (table_chairs t)).
  rewrite Hrefs.
  split_and!; try done.
  - apply nextTableNumber_bounds.
  - rewrite fmap_imap. unfold compose. cbn.
    rewrite (imap_seq_0 _ (fun i => id +:+ "c" +:+ pretty (i + 1))).
    apply chair_names_NoDup.
  - intros Hne Hnd. apply NoDup_app in Hnd as (_ & Hdisj & _).
    destruct (refs_of_chairs (table_chairs t)) as [|x l] eqn:Hl; [done|].
    apply (Hdisj x); [|left].
    eapply refs_of_chairs_elem_of; [done|]. rewrite Hl. left.
Qed.

Lemma duplicateTable_found snapToGrid tableId ts k i t :
  list_find (fun x => table_id x = tableId) ts = Some (i, t) ->
  duplicateTable random_hex now_hex snapToGrid tableId ts k
  = (ts ++ [ {| table_id := (uid random_hex now_hex "t" k).1;
                table_number := nextTableNumber ts;
                table_label := table_label t;
                table_shape := table_shape t;
                table_numberStyle := table_numberStyle t;
                table_isVip := Some (default false (table_isVip t));
                table_x := snap snapToGrid (table_x t + 40);
                table_y := snap snapToGrid (table_y t + 40);
                table_rotation := table_rotation t;
                table_chairs :=
                  imap (fun i c =>
                          {| chair_id := (uid random_hex now_hex "t" k).1
                                         +:+ "c" +:+ pretty (i + 1);
                             chair_guestId := chair_guestId c |})
                       (table_chairs t) |} ], S k).
Proof. intros Hfind. unfold duplicateTable. by rewrite Hfind. Qed.

(** X5: [duplicateTable(tableId)] returns the tables as they are, without a
    call of [uid], when no table has the id; otherwise it appends one table
    that is the first such table in label, shape, number style, rotation and
    VIP flag (false when the original has none), moved by 40 both ways and
    snapped, with the id drawn from [uid], the number [nextTableNumber] (above
    every number in use when these are below 2^53), and as many chairs, named
    after the new id and their place, each with the guest of the chair it
    copies: every seated guest of the original is then referenced twice. *)
Theorem duplicateTable_copies_assignments snapToGrid tableId ts k
    (Hsafe : Forall (fun t => (table_number t < 2 ^ 53)%Z) ts) :
  let r := duplicateTable random_hex now_hex snapToGrid tableId ts k in
  match list_find (fun x => table_id x = tableId) ts with
  | None => r = (ts, k)
  | Some (_, t) =>
      exists copy,
        r = (ts ++ [copy], S k)
        /\ table_id copy = (uid random_hex now_hex "t" k).1
        /\ table_number copy = nextTableNumber ts
        /\ (table_number copy <= 2 ^ 53)%Z
        /\ Forall (fun u => (table_number u < table_number copy)%Z) ts
        /\ table_label copy = table_label t
        /\ table_shape copy = table_shape t
        /\ table_numberStyle copy = table_numberStyle t
        /\ table_isVip copy = Some (default false (table_isVip t))
        /\ table_x copy = snap snapToGrid (table_x t + 40)
        /\ table_y copy = snap snapToGrid (table_y t + 40)
        /\ table_rotation copy = table_rotation t
        /\ chair_id <$> table_chairs copy
           = imap (fun i _ => table_id copy +:+ "c" +:+ pretty (i + 1))
                  (table_chairs t)
        /\ chair_guestId <$> table_chairs copy = chair_guestId <$> table_chairs t
        /\ NoDup (chair_id <$> table_chairs copy)
        /\ seat_refs r.1 = seat_refs ts ++ refs_of_chairs (table_chairs t)
        /\ (refs_of_chairs (table_chairs t) <> [] -> ~ NoDup (seat_refs r.1))
  end.
Proof.
  cbn zeta.
  pose proof (duplicateTable_spec snapToGrid tableId ts k) as Hspec.
  cbn zeta in Hspec.
  destruct (list_find (fun x => table_id x = tableId) ts) as [[i t]|] eqn:Hfind;
    [|exact Hspec].
  destruct Hspec as (copy & Hr & Hid & Hshape & Hrot & Hlt & Hg & Hnd & Hrefs & Htwice).
  pose proof (duplicateTable_found snapToGrid tableId ts k i t Hfind) as Hfound.
  rewrite Hfound in Hr. injection Hr as Hcopy.
  apply app_inj_tail in Hcopy as [_ Hcopy].
  rewrite Hfound in Hrefs, Htwice. rewrite Hfound.
  exists copy. rewrite <- Hcopy in *. clear Hcopy.
  split_and!; try done.
  - cbn [table_number].
    pose proof (foldl_max_number_upper ts 0 (2 ^ 53 - 1)) as Hup.
    unfold nextTableNumber.
    cut (foldl (fun m t => Z.max m (table_number t)) 0 ts <= 2 ^ 53 - 1)%Z; [lia|].
    apply Hup; [done|].
    eapply Forall_impl; [exact Hsafe|]. cbn. intros u Hu. lia.
  - cbn [table_chairs table_id]. rewrite fmap_imap. by apply imap_ext.
Qed.

End NewTables.

Lemma addTable_appends_empty_table_witness :
  Forall (fun t => (table_number t < 2 ^ 53)%Z) defaultTables
  /\ exists base,
       (addTable sample_random sample_now round true (800, 706)%R (0, 0)%R
          defaultTables 0).1 = defaultTables ++ [base]
       /\ Forall (fun t => (table_number t < table_number base)%Z) defaultTables.
Proof.
  assert (Forall (fun t => (table_number t < 2 ^ 53)%Z) defaultTables) as Hsafe
    by (repeat constructor).
  split; [exact Hsafe|].
  destruct (addTable_appends_empty_table sample_random sample_now round true
              (800, 706)%R (0, 0)%R defaultTables 0 Hsafe)
    as (base & Hnext & _ & _ & _ & _ & Hlt & _).
  by exists base.
Defined.

Lemma duplicateTable_copies_assignments_witness :
  Forall (fun t => (table_number t < 2 ^ 53)%Z) defaultTables
  /\ exists copy,
       duplicateTable sample_random sample_now true "t1" defaultTables 0
       = (defaultTables ++ [copy], 1)
       /\ chair_guestId <$> table_chairs copy
          = chair_guestId <$> table_chairs defaultTable1.
Proof.
  assert (Forall (fun t => (table_number t < 2 ^ 53)%Z) defaultTables) as Hsafe
    by (repeat constructor).
  split; [exact Hsafe|].
  pose proof (duplicateTable_copies_assignments sample_random sample_now true
                "t1" defaultTables 0 Hsafe) as H.
  cbn zeta in H.
  assert (list_find (fun x => table_id x = "t1") defaultTables
          = Some (0, defaultTable1)) as Hfind by (vm_compute; reflexivity).
  rewrite Hfind in H.
  destruct H as (copy & Hr & _ & _ & _ & _ & _ & _ & _ & _ & _ & _ & _ & _ & Hg & _).
  by exists copy.
Defined.

(** ** Deleting a table *)

Lemma seat_refs_sublist ts1 ts2 :
  sublist ts1 ts2 -> sublist (seat_refs ts1) (seat_refs ts2).
Proof. intros H. unfold seat_refs. by apply bind_sublist. Qed.

Lemma unassigned_pool_grows gs ts1 ts2 g :
  seat_refs ts2 ⊆ seat_refs ts1 ->
  g ∈ unassignedGuests {| guests := gs; tables := ts1 |} ->
  g ∈ unassignedGuests {| guests := gs; tables := ts2 |}.
Proof.
  intros Hsub. rewrite !unassignedGuests_spec. cbn.
  intros [Hg Hfree]. split; [done|]. intros Hin. apply Hfree. by apply Hsub.
Qed.

Lemma deleteTable_absent tableId (ts : list TableModel) :
  tableId ∉ table_id <$> ts -> deleteTable tableId ts = ts.
Proof.
  unfold deleteTable. induction ts as [|t r IH]; intros Hn; [done|].
  rewrite fmap_cons in Hn. apply not_elem_of_cons in Hn as [Ht Hr].
  rewrite filter_cons_True by congruence. f_equal. by apply IH.
Qed.

(** X6: [deleteTable(tableId)] removes every table with that id and keeps
    the others in order; it changes nothing when no table has the id, and
    nothing more when applied twice; the guest references left are among those
    that were there, in order, so no guest gains a seat, a plan with one seat
    per guest stays one, and every unassigned guest stays unassigned. *)
Theorem deleteTable_removes_only_that_table tableId p :
  let next := deleteTable tableId (tables p) in
  (tableId ∉ table_id <$> next)
  /\ (forall t, t ∈ next <-> t ∈ tables p /\ table_id t <> tableId)
  /\ sublist next (tables p)
  /\ deleteTable tableId next = next
  /\ ((tableId ∉ table_id <$> tables p) -> next = tables p)
  /\ sublist (seat_refs next) (seat_refs (tables p))
  /\ (NoDup (seat_refs (tables p)) -> NoDup (seat_refs next))
  /\ (forall g, g ∈ unassignedGuests p ->
                g ∈ unassignedGuests {| guests := guests p; tables := next |}).
Proof.
  cbn zeta. unfold deleteTable.
  assert (sublist (filter (fun t => table_id t <> tableId) (tables p)) (tables p))
    as Hsub by apply sublist_filter.
  split_and!.
  - intros Hin. apply list_elem_of_fmap in Hin as (t & Ht & Hin).
    apply list_elem_of_filter in Hin as [Hne _]. congruence.
  - intros t. rewrite list_elem_of_filter. tauto.
  - done.
  - rewrite list_filter_filter. apply list_filter_iff. tauto.
  - apply deleteTable_absent.
  - by apply seat_refs_sublist.
  - intros Hnd. eapply sublist_NoDup; [exact Hnd|]. by apply seat_refs_sublist.
  - intros g Hg. destruct p as [gs ts]. cbn in *.
    eapply unassigned_pool_grows; [|exact Hg].
    by apply sublist_subseteq, seat_refs_sublist.
Qed.

(** ** Seat keys of new tables *)

Lemma all_chairs_app ts1 ts2 :
  all_chairs (ts1 ++ ts2) = all_chairs ts1 ++ all_chairs ts2.
Proof. unfold all_chairs. apply bind_app. Qed.

Lemma all_chairs_singleton t :
  all_chairs [t] = pair (table_id t) <$> table_chairs t.
Proof. unfold all_chairs. cbn. apply app_nil_r. Qed.

Lemma seat_key_table tid cid ts :
  (tid, cid) ∈ seat_key <$> all_chairs ts -> tid ∈ table_id <$> ts.
Proof.
  intros Hin. apply list_elem_of_fmap in Hin as ([tid' c] & Hk & Hin).
  unfold all_chairs in Hin. apply list_elem_of_bind in Hin as (t & Hc & Ht).
  apply list_elem_of_fmap in Hc as (c' & Hc & _).
  apply list_elem_of_fmap. exists t. split; [|done].
  unfold seat_key in Hk. cbn in Hk. congruence.
Qed.

Lemma seat_keys_with_new_table ts t :
  NoDup (seat_key <$> all_chairs ts) ->
  table_id t ∉ table_id <$> ts ->
  NoDup (chair_id <$> table_chairs t) ->
  NoDup (seat_key <$> all_chairs (ts ++ [t])).
Proof.
  intros Hkeys Hfresh Hchairs.
  rewrite all_chairs_app, all_chairs_singleton, fmap_app.
  apply NoDup_app. split_and!; [done| |].
  - intros [tid cid] Hin Hin2. apply seat_key_table in Hin.
    apply list_elem_of_fmap in Hin2 as ([tid' c] & Hk & Hin2).
    apply list_elem_of_fmap in Hin2 as (c' & Hc & _).
    unfold seat_key in Hk. cbn in Hk. apply Hfresh. congruence.
  - rewrite <- list_fmap_compose.
    change (seat_key ∘ pair (table_id t)) with (pair (table_id t) ∘ chair_id).
    rewrite list_fmap_compose.
    apply NoDup_fmap_2_strong; [|done]. intros x y _ _ Heq. congruence.
Qed.

Section FreshIds.

Variable random_hex : nat -> string.
Variable now_hex : nat -> string.

(** X7: when the id drawn from [uid] is the id of no table of the plan,
    [addTable] and [duplicateTable] keep the seats identified by their table
    id and chair id: no two seats share both. *)
Theorem new_tables_keep_seat_keys_unique shape snapToGrid stageSize pan
    tableId ts k
    (Hfresh : (uid random_hex now_hex "t" k).1 ∉ table_id <$> ts)
    (Hkeys : NoDup (seat_key <$> all_chairs ts)) :
  NoDup (seat_key <$> all_chairs
           (addTable random_hex now_hex shape snapToGrid stageSize pan ts k).1)
  /\ NoDup (seat_key <$> all_chairs
              (duplicateTable random_hex now_hex snapToGrid tableId ts k).1).
Proof.
  split.
  - destruct (addTable_spec random_hex now_hex shape snapToGrid
                stageSize pan ts k) as (base & -> & Hid & _ & _ & _ & _ & Hnd & _).
    apply seat_keys_with_new_table; [done| |done]. by rewrite Hid.
  - pose proof (duplicateTable_spec random_hex now_hex snapToGrid
                  tableId ts k) as H. cbn zeta in H.
    destruct (list_find _ ts) as [[i t]|].
    + destruct H as (copy & -> & Hid & _ & _ & _ & _ & Hnd & _).
      apply seat_keys_with_new_table; [done| |done]. by rewrite Hid.
    + by rewrite H.
Qed.

End FreshIds.

Lemma new_tables_keep_seat_keys_unique_witness :
  ((uid sample_random sample_now "t" 0).1 ∉ table_id <$> defaultTables)
  /\ NoDup (seat_key <$> all_chairs defaultTables)
  /\ NoDup (seat_key <$> all_chairs
              (duplicateTable sample_random sample_now true "t1"
                 defaultTables 0).1).
Proof.
  assert ((uid sample_random sample_now "t" 0).1 ∉ table_id <$> defaultTables)
    as Hfresh by decide_by_computation.
  assert (NoDup (seat_key <$> all_chairs defaultTables))
    as Hkeys by decide_by_computation.
  split_and!; [done|done|].
  exact (proj2 (new_tables_keep_seat_keys_unique sample_random sample_now
                  round true (1000, 650)%R (0, 0)%R "t1" defaultTables 0
                  Hfresh Hkeys)).
Defined.

(** ** Unassigning, then assigning *)

(** [unassignGuestEverywhere] on one seat. *)
Lemma all_chairs_unassign g ts :
  all_chairs (unassignGuestEverywhere g ts)
  = (fun tc => (tc.1, if bool_decide (chair_guestId tc.2 = Some g)
                      then with_guestId tc.2 None else tc.2))
    <$> all_chairs ts.
Proof.
  unfold unassignGuestEverywhere, all_chairs.
  induction ts as [|t r IH]; [done|]. cbn.
  rewrite fmap_app, <- IH. f_equal.
  rewrite <- !list_fmap_compose. by apply list_fmap_ext.
Qed.

Lemma seat_keys_unassign g ts :
  seat_key <$> all_chairs (unassignGuestEverywhere g ts)
  = seat_key <$> all_chairs ts.
Proof.
  rewrite all_chairs_unassign, <- list_fmap_compose.
  apply list_fmap_ext. intros _ [tid c] _. unfold seat_key; cbn.
  by case_bool_decide.
Qed.

Lemma seat_refs_unassign g ts :
  seat_refs (unassignGuestEverywhere g ts)
  = filter (fun x => x <> g) (seat_refs ts).
Proof.
  rewrite !seat_refs_all_chairs, all_chairs_unassign.
  induction (all_chairs ts) as [|[tid c] l IH]; [done|].
  rewrite fmap_cons. cbn [omap list_omap]. cbn [fst snd]. rewrite IH. clear IH.
  unfold chair_ref. case_bool_decide as Hg.
  - cbn. rewrite Hg. cbn.
    destruct (negb (String.eqb g EmptyString)); [|done].
    by rewrite filter_cons_False by (intros H; by apply H).
  - destruct (truthy (chair_guestId c)); [|done].
    destruct (chair_guestId c) as [x|]; [|done].
    rewrite filter_cons_True; [done|]. congruence.
Qed.

(** X8: unassigning a guest everywhere and then assigning that guest to a
    seat, the order the model leaves to its callers, moves the guest: the
    seat with the key holds the guest, every other seat that held the guest
    holds none, every other seat is as it was; and a plan with at most one
    seat per guest and distinct seat keys is again such a plan, wherever the
    guest sat before. *)
Theorem unassign_then_assign_moves_guest tableId chairId g ts
    (Hone : NoDup (seat_refs ts))
    (Hkeys : NoDup (seat_key <$> all_chairs ts)) :
  let next := assignGuest tableId chairId (Some g)
                (unassignGuestEverywhere g ts) in
  Forall2 (seat_reassigned tableId chairId g) (all_chairs ts) (all_chairs next)
  /\ NoDup (seat_refs next)
  /\ NoDup (seat_key <$> all_chairs next).
Proof.
  cbn zeta. split_and!.
  - rewrite all_chairs_assignGuest, all_chairs_unassign, <- list_fmap_compose.
    apply Forall2_fmap_r, Forall_Forall2_diag, Forall_forall.
    intros [tid c] _.
    unfold seat_reassigned, compose, assign_seat, assign_chair, seat_key; cbn.
    destruct (decide (chair_guestId c = Some g)) as [Hg|Hg];
      [rewrite !(bool_decide_eq_true_2 _ Hg)
      |rewrite !(bool_decide_eq_false_2 _ Hg)]; cbn;
      (split_and!;
       [done
       |by case_bool_decide
       |case_bool_decide as Hm; case_bool_decide as Hk; try done; exfalso;
        [apply Hk; destruct Hm; congruence | apply Hm; split; congruence]]).
  - rewrite seat_refs_all_chairs, all_chairs_assignGuest.
    apply NoDup_refs_assign_seat.
    + rewrite <- seat_refs_all_chairs, seat_refs_unassign. by apply NoDup_filter.
    + by rewrite seat_keys_unassign.
    + rewrite <- seat_refs_all_chairs, seat_refs_unassign.
      intros Hin. apply list_elem_of_filter in Hin as [Hne _]. by apply Hne.
  - rewrite all_chairs_assignGuest, <- list_fmap_compose.
    rewrite <- (seat_keys_unassign g ts) in Hkeys.
    erewrite list_fmap_ext; [exact Hkeys|].
    intros _ [tid c] _. unfold compose, assign_seat, assign_chair, seat_key; cbn.
    by case_bool_decide.
Qed.

Lemma unassign_then_assign_moves_guest_witness :
  NoDup (seat_refs defaultTables)
  /\ NoDup (seat_key <$> all_chairs defaultTables)
  /\ NoDup (seat_refs (assignGuest "t1" "t1c5" (Some "g1")
                         (unassignGuestEverywhere "g1" defaultTables))).
Proof.
  assert (NoDup (seat_refs defaultTables)) as Hone by decide_by_computation.
  assert (NoDup (seat_key <$> all_chairs defaultTables)) as Hkeys
    by decide_by_computation.
  split_and!; [done|done|].
  exact (proj1 (proj2 (unassign_then_assign_moves_guest "t1" "t1c5" "g1"
                         defaultTables Hone Hkeys))).
Defined.

(** ** Clearing a seat *)





(** ** Removing a guest *)

(** X10: [removeGuest(g)] leaves exactly the guest references other than [g],
    in order; a plan with at most one seat per guest stays one, and a plan in
    which every reference is the id of a guest of the list stays one. *)
Theorem removeGuest_keeps_invariants g p :
  let p' := removeGuest g p in
  seat_refs (tables p') = filter (fun x => x <> g) (seat_refs (tables p))
  /\ (NoDup (seat_refs (tables p)) -> NoDup (seat_refs (tables p')))
  /\ (no_dangling p -> no_dangling p').
Proof.
  cbn zeta. unfold removeGuest; cbn. split_and!.
  - apply seat_refs_unassign.
  - intros Hnd. rewrite seat_refs_unassign. by apply NoDup_filter.
  - unfold no_dangling; cbn. intros Hok x Hx.
    rewrite seat_refs_unassign in Hx.
    apply list_elem_of_filter in Hx as [Hne Hx].
    apply Hok, list_elem_of_fmap in Hx as (guest & -> & Hguest).
    apply list_elem_of_fmap. exists guest. split; [done|].
    by apply list_elem_of_filter.
Qed.

(** ** Patching a table *)

Lemma setTablePatch_seats tableId patch prev
    (Hid : patch_id patch = None)
    (Hchairs : patch_chairs patch = None) :
  let next := setTablePatch tableId patch prev in
  table_id <$> next = table_id <$> prev
  /\ all_chairs next = all_chairs prev
  /\ seat_refs next = seat_refs prev
  /\ Forall2 (fun t t' => table_id t <> tableId -> t' = t) prev next.
Proof.
  cbn zeta. unfold setTablePatch.
  assert (forall t,
            table_id (if bool_decide (table_id t = tableId)
                      then apply_patch t patch else t) = table_id t
            /\ table_chairs (if bool_decide (table_id t = tableId)
                             then apply_patch t patch else t) = table_chairs t)
    as Hsame.
  { intros t. case_bool_decide; [|done]. unfold apply_patch; cbn.
    by rewrite Hid, Hchairs. }
  assert (all_chairs ((fun t => if bool_decide (table_id t = tableId)
                                then apply_patch t patch else t) <$> prev)
          = all_chairs prev) as Hall.
  { unfold all_chairs. induction prev as [|t r IH]; [done|].
    cbn. destruct (Hsame t) as [-> ->]. by rewrite <- IH. }
  split_and!.
  - rewrite <- list_fmap_compose. apply list_fmap_ext. intros _ t _.
    apply Hsame.
  - done.
  - by rewrite !seat_refs_all_chairs, Hall.
  - apply Forall2_fmap_r, Forall_Forall2_diag, Forall_forall.
    intros t _ Hne. by rewrite bool_decide_eq_false_2.
Qed.

(** X11: a patch that sets neither [id] nor [chairs], as every patch the page
    builds, leaves the ids of the tables, every seat with its guest, and
    every table with another id as they were. *)
Theorem setTablePatch_keeps_seats tableId patch prev
    (Hid : patch_id patch = None)
    (Hchairs : patch_chairs patch = None) :
  let next := setTablePatch tableId patch prev in
  table_id <$> next = table_id <$> prev
  /\ all_chairs next = all_chairs prev
  /\ seat_refs next = seat_refs prev
  /\ Forall2 (fun t t' => table_id t <> tableId -> t' = t) prev next.
Proof. exact (setTablePatch_seats tableId patch prev Hid Hchairs). Qed.

Lemma setTablePatch_keeps_seats_witness :
  patch_id (position_patch 48 72) = None
  /\ patch_chairs (position_patch 48 72) = None
  /\ all_chairs (setTablePatch "t1" (position_patch 48 72) defaultTables)
     = all_chairs defaultTables.
Proof.
  split_and!; [reflexivity|reflexivity|].
  exact (proj1 (proj2 (setTablePatch_keeps_seats "t1" (position_patch 48 72)
                         defaultTables eq_refl eq_refl))).
Defined.

(** ** The selection *)

Lemma resized_table_ids tableId count (prev next : list TableModel) :
  Forall2 (resized tableId count) prev next ->
  table_id <$> next = table_id <$> prev.
Proof.
  induction 1 as [|t t' r r' Hr _ IH]; [done|].
  cbn. rewrite IH. f_equal. unfold resized in Hr.
  case_bool_decide; [|by subst]. by destruct Hr as (add & -> & _).
Qed.

Lemma assignGuest_table_ids tableId chairId guestId prev :
  table_id <$> assignGuest tableId chairId guestId prev = table_id <$> prev.
Proof.
  rewrite assignGuest_pointwise, <- list_fmap_compose.
  by apply list_fmap_ext.
Qed.

Lemma unassign_table_ids g prev :
  table_id <$> unassignGuestEverywhere g prev = table_id <$> prev.
Proof.
  unfold unassignGuestEverywhere. rewrite <- list_fmap_compose.
  by apply list_fmap_ext.
Qed.

Lemma selection_ok_same_ids s s' :
  pg_selectedTableId s' = pg_selectedTableId s ->
  table_id <$> pg_tables s' = table_id <$> pg_tables s ->
  selection_ok s -> selection_ok s'.
Proof. unfold selection_ok. by intros -> ->. Qed.

Lemma list_find_table_id tableId (ts : list TableModel) i t :
  list_find (fun x => table_id x = tableId) ts = Some (i, t) ->
  tableId ∈ table_id <$> ts.
Proof.
  intros (Hi & Hid & _)%list_find_Some.
  apply list_elem_of_fmap. exists t. split; [done|].
  by eapply list_elem_of_lookup_2.
Qed.

Lemma selectedTable_id s t :
  selectedTable s = Some t -> pg_selectedTableId s = Some (table_id t).
Proof.
  unfold selectedTable. destruct (pg_selectedTableId s) as [sel|]; [|done].
  destruct (list_find _ _) as [[i u]|] eqn:Hfind; [|done].
  intros [= ->]. apply list_find_Some in Hfind as (_ & <- & _). done.
Qed.

Lemma selection_ok_deleteTable tableId s :
  selection_ok s -> selection_ok (page_deleteTable tableId s).
Proof.
  unfold selection_ok, page_deleteTable; cbn.
  case_bool_decide as Hsel; [done|].
  destruct (pg_selectedTableId s) as [sel|]; [|done].
  intros Hin. apply list_elem_of_fmap in Hin as (t & -> & Ht).
  apply list_elem_of_fmap. exists t. split; [done|].
  unfold deleteTable. apply list_elem_of_filter. split; [congruence|done].
Qed.

Lemma selection_ok_patch s t patch :
  selectedTable s = Some t -> patch_id patch = None ->
  selection_ok s ->
  selection_ok (set_tables (setTablePatch (table_id t) patch (pg_tables s)) s).
Proof.
  intros _ Hid. apply selection_ok_same_ids; [done|]. cbn.
  unfold setTablePatch. rewrite <- list_fmap_compose.
  apply list_fmap_ext. intros _ u _. cbn.
  case_bool_decide; [|done]. unfold apply_patch; cbn. by rewrite Hid.
Qed.

(** X12: the handlers of [page_step] (adding, duplicating, deleting and
    patching tables, chair counts, drags and pans, the keyboard, seat clicks
    and drops, guest removal, loads) keep the selection sound: if the
    selected id is empty or the id of a table of the page before, it is so
    after any number of them. *)
Theorem selection_stays_on_a_table s s'
    (Hok : selection_ok s)
    (Hsteps : rtc page_step s s') :
  selection_ok s'.
Proof.
  induction Hsteps as [|s s1 s2 Hstep _ IH]; [done|]. apply IH. clear IH s2.
  destruct Hstep.
  - unfold page_addTable, gbind, gret, uid, selection_ok; cbn.
    rewrite fmap_app. apply elem_of_app. right. cbn. left.
  - unfold page_duplicateTable.
    destruct (list_find _ _) as [[i t]|] eqn:Hfind; [|done].
    pose proof (duplicateTable_spec random_hex now_hex
                  (pg_snapToGrid s) tableId (pg_tables s) k) as Hdup.
    cbn zeta in Hdup. rewrite Hfind in Hdup.
    destruct Hdup as (copy & -> & Hid & _).
    unfold selection_ok; cbn. rewrite fmap_app. apply elem_of_app. right.
    cbn. rewrite Hid. left.
  - by apply selection_ok_deleteTable.
  - unfold page_setChairsCount, gbind, gret.
    pose proof (setChairsCount_resized random_hex now_hex tableId count
                  (pg_tables s) k) as Hres.
    destruct (setChairsCount _ _ _ _ _ k) as [ts k1]; cbn in *.
    revert Hok. apply selection_ok_same_ids; [done|]. cbn.
    by eapply resized_table_ids.
  - by apply selection_ok_patch.
  - unfold rotate_left. destruct (selectedTable s) as [t|] eqn:Hsel; [|done].
    by apply selection_ok_patch.
  - unfold rotate_right. destruct (selectedTable s) as [t|] eqn:Hsel; [|done].
    by apply selection_ok_patch.
  - unfold startDrag. case_bool_decide; cbn; [|done].
    destruct (list_find _ _) as [[i t]|] eqn:Hfind; [|done].
    apply list_find_table_id in Hfind. by destruct stageMounted.
  - unfold moveDrag. destruct (pg_dragging s) as [d|]; [|done].
    revert Hok. apply selection_ok_same_ids; [done|]. cbn.
    unfold setTablePatch. rewrite <- list_fmap_compose.
    apply list_fmap_ext. intros _ u _. cbn. by case_bool_decide.
  - done.
  - unfold onStagePointerDown. by case_bool_decide.
  - unfold onStagePointerMove.
    destruct (negb (pg_panning s) || _); [done|].
    by destruct (pg_panStart s).
  - done.
  - unfold onKeydown.
    assert (selection_ok (if bool_decide (key = "Escape")
                          then set_activeSeat None s else s)) as Hok1
      by (by case_bool_decide).
    destruct (bool_decide (key = "Delete") && truthy (pg_selectedTableId s));
      [|done].
    destruct (pg_selectedTableId s) as [sel|]; [|done].
    by apply selection_ok_deleteTable.
  - done.
  - unfold onSeatClick, selection_ok; cbn.
    apply list_elem_of_fmap. by exists t.
  - unfold onSeatDrop. destruct (truthy dragged && _); [|done].
    revert Hok. apply selection_ok_same_ids; [done|]. cbn.
    apply assignGuest_table_ids.
  - revert Hok. apply selection_ok_same_ids; [done|]. cbn.
    apply assignGuest_table_ids.
  - revert Hok. apply selection_ok_same_ids; [done|]. cbn.
    apply unassign_table_ids.
  - unfold page_loadLocalVersion.
    destruct (list_find _ _) as [[i v]|]; [|done].
    unfold load_into, selection_ok; cbn.
    destruct (sv_tables v) as [|t r]; [done|]. cbn. left.
  - unfold load_into, selection_ok; cbn.
    destruct ts as [|t r]; [done|]. cbn. left.
Qed.

Lemma selection_stays_on_a_table_witness :
  selection_ok defaultPage
  /\ rtc page_step defaultPage (onKeydown "Delete" defaultPage)
  /\ selection_ok (onKeydown "Delete" defaultPage).
Proof.
  assert (selection_ok defaultPage) as Hok by decide_by_computation.
  assert (rtc page_step defaultPage (onKeydown "Delete" defaultPage)) as Hsteps
    by (apply rtc_once; constructor).
  split_and!; [done|done|].
  exact (selection_stays_on_a_table defaultPage (onKeydown "Delete" defaultPage)
           Hok Hsteps).
Defined.

(** ** Snapping to the grid *)

Section Gestures.
Local Open Scope R_scope.

Lemma Math_round_bounds x : Math_round x - / 2 <= x < Math_round x + / 2.
Proof.
  unfold Math_round.
  destruct (base_Int_part (x + / 2)) as [Hle Hgt]. lra.
Qed.

Lemma Math_round_IZR k : Math_round (IZR k) = IZR k.
Proof.
  unfold Math_round. f_equal. symmetry. apply Int_part_spec. lra.
Qed.

(** X15: with snapping on, [snap] returns a multiple of the grid size 24, at
    most 12 away from its argument, and leaves such a multiple as it is;
    with snapping off it returns its argument. *)
Theorem snap_lands_on_grid n :
  (exists k : Z, snap true n = IZR k * 24)
  /\ Rabs (snap true n - n) <= 12
  /\ snap true (snap true n) = snap true n
  /\ snap false n = n.
Proof.
  unfold snap, gridSize; cbn [negb]. split_and!; [| | |done].
  - by exists (Int_part (n / 24 + / 2)).
  - pose proof (Math_round_bounds (n / 24)) as Hb.
    apply Rabs_le. lra.
  - unfold Math_round at 2.
    replace (IZR (Int_part (n / 24 + / 2)) * 24 / 24)
      with (IZR (Int_part (n / 24 + / 2))) by lra.
    by rewrite Math_round_IZR.
Qed.

(** ** Panning and dragging *)

Lemma pan_moves_from_start (es : list Pointer) s start :
  pg_tool s = tool_pan -> pg_panning s = true -> pg_panStart s = Some start ->
  let s' := run_moves onStagePointerMove es s in
  pg_tool s' = tool_pan /\ pg_panning s' = true /\ pg_panStart s' = Some start
  /\ pg_tables s' = pg_tables s /\ pg_guests s' = pg_guests s
  /\ pg_selectedTableId s' = pg_selectedTableId s
  /\ pg_pan s'
     = match last es with
       | None => pg_pan s
       | Some e => (ps_px start + (clientX e - ps_x start),
                    ps_py start + (clientY e - ps_y start))
       end.
Proof.
  revert s. induction es as [|e es IH] using rev_ind; intros s Ht Hp Hs.
  { cbn. by split_and!. }
  unfold run_moves in *. cbn zeta in *. rewrite foldl_snoc, last_snoc.
  destruct (IH s Ht Hp Hs) as (Ht' & Hp' & Hs' & Htab & Hg & Hsel & _).
  set (s0 := foldl _ s es) in *.
  unfold onStagePointerMove. rewrite Hp', Ht', Hs'. cbn.
  by rewrite bool_decide_eq_true_2 by done.
Qed.

(** X13: in the pan tool, a pointer-down on the stage followed by any moves
    leaves the pan at its value at pointer-down plus the displacement of the
    last move from the point of the pointer-down, whatever the moves between;
    tables, guests and selection are untouched; after pointer-up a move
    changes nothing. *)
Theorem pan_follows_pointer s e0 es e
    (Htool : pg_tool s = tool_pan) :
  let s1 := run_moves onStagePointerMove (es ++ [e]) (onStagePointerDown e0 s) in
  pg_pan s1 = ((pg_pan s).1 + (clientX e - clientX e0),
               (pg_pan s).2 + (clientY e - clientY e0))
  /\ pg_tables s1 = pg_tables s
  /\ pg_guests s1 = pg_guests s
  /\ pg_selectedTableId s1 = pg_selectedTableId s
  /\ forall e', onStagePointerMove e' (onStagePointerUp s1) = onStagePointerUp s1.
Proof.
  cbn zeta.
  assert (onStagePointerDown e0 s
          = set_panning true
              (Some {| ps_x := clientX e0; ps_y := clientY e0;
                       ps_px := (pg_pan s).1; ps_py := (pg_pan s).2 |}) s)
    as Hdown.
  { unfold onStagePointerDown. by rewrite bool_decide_eq_true_2. }
  rewrite Hdown.
  destruct (pan_moves_from_start (es ++ [e])
              (set_panning true
                 (Some {| ps_x := clientX e0; ps_y := clientY e0;
                          ps_px := (pg_pan s).1; ps_py := (pg_pan s).2 |}) s)
              {| ps_x := clientX e0; ps_y := clientY e0;
                 ps_px := (pg_pan s).1; ps_py := (pg_pan s).2 |})
    as (_ & _ & _ & Htab & Hg & Hsel & Hpan); try done.
  rewrite last_snoc in Hpan. split_and!; try done.
Qed.

Lemma pan_follows_pointer_witness :
  let e0 := {| clientX := 100; clientY := 100 |} in
  let e1 := {| clientX := 130; clientY := 90 |} in
  let e2 := {| clientX := 160; clientY := 140 |} in
  pg_tool defaultPage = tool_pan
  /\ pg_pan (run_moves onStagePointerMove ([e1] ++ [e2])
               (onStagePointerDown e0 defaultPage))
     = ((pg_pan defaultPage).1 + (160 - 100), (pg_pan defaultPage).2 + (140 - 100)).
Proof.
  cbn zeta. split; [reflexivity|].
  exact (proj1 (pan_follows_pointer defaultPage
                  {| clientX := 100; clientY := 100 |}
                  [{| clientX := 130; clientY := 90 |}]
                  {| clientX := 160; clientY := 140 |} eq_refl)).
Defined.





End Gestures.

(** ** Chair geometry, again *)

Section GeometryAgain.
Local Open Scope R_scope.




Lemma t_of_unit index total : 0 <= t_of index total <= 1.
Proof.
  unfold t_of, posOnSide_of.
  destruct (Nat.leb_spec (perSide_of total) 1) as [Hle|Hgt]; [lra|].
  set (m := perSide_of total) in *.
  pose proof (Nat.mod_upper_bound index m ltac:(lia)) as Hmod.
  assert (2 <= INR m) as Hm by (replace 2 with (INR 2) by (simpl; lra); apply le_INR; lia).
  assert (0 <= INR (index mod m)) as H0 by apply pos_INR.
  assert (INR (index mod m) <= INR m - 1) as H1.
  { replace (INR m - 1) with (INR (m - 1)) by (rewrite minus_INR by lia; simpl; lra).
    apply le_INR. lia. }
  split.
  - apply Rmult_le_pos; [lra|]. left. apply Rinv_0_lt_compat. lra.
  - apply (Rmult_le_reg_r (INR m - 1)); [lra|].
    unfold Rdiv. rewrite Rmult_assoc, Rinv_l by lra. lra.
Qed.

(** X17: the dot of every chair of a rectangular table lies on the border of
    the 126 by 74 footprint: within it, and on one of its four edges. *)
Theorem rect_chair_dot_on_border index total :
  let xy := ChairRect index total 126 74 in
  -63 <= xy.1 <= 63
  /\ -37 <= xy.2 <= 37
  /\ (xy.1 = -63 \/ xy.1 = 63 \/ xy.2 = -37 \/ xy.2 = 37).
Proof.
  cbn zeta. pose proof (t_of_unit index total) as Ht.
  unfold ChairRect.
  destruct (side_of index total) as [|[|[|s]]]; cbn [Nat.eqb fst snd];
    split_and!; lra.
Qed.

(** X18: on a rectangular table with 5 chairs or more, the last chair of the
    first side and the first chair of the second side get the same dot, the
    corner of the footprint, while their seat markers differ. *)
Theorem rect_corner_dots_coincide (t : TableModel)
    (Hrect : table_shape t = rect)
    (Hn : (5 <= length (table_chairs t))%nat) :
  let m := perSide_of (length (table_chairs t)) in
  (m < length (table_chairs t))%nat
  /\ chair_decoration t (m - 1) = (63, -37)
  /\ chair_decoration t m = (63, -37)
  /\ seat_marker t (m - 1) <> seat_marker t m.
Proof.
  cbn zeta. set (n := length (table_chairs t)) in *.
  assert (2 <= perSide_of n /\ perSide_of n < n)%nat as [Hm Hlt].
  { unfold perSide_of.
    pose proof (Nat.div_mod (n + 3) 4 ltac:(lia)).
    pose proof (Nat.mod_upper_bound (n + 3) 4 ltac:(lia)). lia. }
  set (m := perSide_of n) in *.
  assert (side_of (m - 1) n = 0%nat) as Hs0.
  { unfold side_of. fold m. apply Nat.div_small. lia. }
  assert (side_of m n = 1%nat) as Hs1.
  { unfold side_of. fold m. apply Nat.div_same. lia. }
  assert (t_of (m - 1) n = 1) as Ht0.
  { unfold t_of, posOnSide_of. fold m.
    destruct (Nat.leb_spec m 1); [lia|].
    rewrite Nat.mod_small by lia.
    rewrite minus_INR by lia. simpl (INR 1).
    assert (2 <= INR m) by (replace 2 with (INR 2) by (simpl; lra); apply le_INR; lia).
    field. lra. }
  assert (t_of m n = 0) as Ht1.
  { unfold t_of, posOnSide_of. fold m.
    destruct (Nat.leb_spec m 1); [lia|].
    rewrite Nat.Div0.mod_same. simpl (INR 0). unfold Rdiv. ring. }
  assert (chair_decoration t (m - 1) = (63, -37)) as Hd0.
  { unfold chair_decoration. rewrite Hrect. fold n.
    rewrite ChairRect_on_edge, Hs0, Ht0. unfold lerp; cbn. f_equal; lra. }
  assert (chair_decoration t m = (63, -37)) as Hd1.
  { unfold chair_decoration. rewrite Hrect. fold n.
    rewrite ChairRect_on_edge, Hs1, Ht1. unfold lerp; cbn. f_equal; lra. }
  split_and!; try done.
  rewrite !rect_marker_offset by done. fold n. rewrite Hs0, Hs1, Hd0, Hd1. cbn.
  intros [= Hx Hy]. lra.
Qed.

Lemma rect_corner_dots_coincide_witness :
  table_shape defaultTable3 = rect
  /\ (5 <= length (table_chairs defaultTable3))%nat
  /\ chair_decoration defaultTable3 2 = chair_decoration defaultTable3 3.
Proof.
  assert (5 <= length (table_chairs defaultTable3))%nat as Hn
    by (vm_compute; lia).
  split_and!; [reflexivity|exact Hn|].
  destruct (rect_corner_dots_coincide defaultTable3 eq_refl Hn)
    as (_ & H2 & H3 & _).
  exact (eq_trans H2 (eq_sym H3)).
Defined.

End GeometryAgain.

(** ** The CSV export, again *)

Lemma append_cons x (a b : string) : String x a +:+ b = String x (a +:+ b).
Proof. reflexivity. Qed.

Lemma append_empty_l (b : string) : EmptyString +:+ b = b.
Proof. reflexivity. Qed.

Lemma append_assoc (a b c : string) : (a +:+ b) +:+ c = a +:+ (b +:+ c).
Proof.
  induction a as [|x a IH]; [done|]. rewrite !append_cons. by f_equal.
Qed.

Lemma append_empty_r (a : string) : a +:+ EmptyString = a.
Proof.
  induction a as [|x a IH]; [done|]. rewrite append_cons. by f_equal.
Qed.

Lemma push_string_cons a v r :
  push_string (String a v) r = push_char a (push_string v r).
Proof. by destruct r as [[f fs] rows]. Qed.

Lemma push_string_empty r : push_string EmptyString r = r.
Proof. by destruct r as [[f fs] rows]. Qed.

Lemma read_field_end m rest :
  m <> in_quotes -> field_end rest -> read m rest = read at_start rest.
Proof.
  intros Hm [->|[[r ->]|[r ->]]]; by destruct m.
Qed.

Lemma csv_special_false a :
  csv_special a = false ->
  Ascii.eqb a dquote = false /\ Ascii.eqb a comma = false
  /\ Ascii.eqb a cr = false /\ Ascii.eqb a lf = false.
Proof.
  unfold csv_special. rewrite !orb_false_iff. tauto.
Qed.

Lemma read_plain m v rest :
  m <> in_quotes -> csv_test v = false -> field_end rest ->
  read m (v +:+ rest) = push_string v (read at_start rest).
Proof.
  revert m. induction v as [|a v IH]; intros m Hm Hv Hrest.
  - rewrite append_empty_l, push_string_empty. by apply read_field_end.
  - cbn [csv_test] in Hv. apply orb_false_iff in Hv as [Ha Hv].
    apply csv_special_false in Ha as (Hq & Hc & Hr & Hl).
    rewrite push_string_cons, <- (IH in_plain) by done.
    rewrite append_cons. cbn [read]. rewrite Hq, Hc, Hr, Hl. by destruct m.
Qed.

Lemma read_quoted v rest :
  field_end rest ->
  read in_quotes (double_quotes v +:+ String dquote rest)
  = push_string v (read at_start rest).
Proof.
  intros Hrest. induction v as [|a v IH].
  - cbn [double_quotes]. rewrite append_empty_l, push_string_empty.
    cbn [read].
    change (Ascii.eqb dquote dquote) with true. cbn match.
    by apply read_field_end.
  - rewrite push_string_cons, <- IH. cbn [double_quotes].
    destruct (Ascii.eqb a dquote) eqn:Ha.
    + apply Ascii.eqb_eq in Ha as ->. reflexivity.
    + rewrite append_cons. cbn [read]. by rewrite Ha.
Qed.

Lemma read_cell v rest :
  field_end rest ->
  read at_start (escapeCsvCell v +:+ rest) = push_string v (read at_start rest).
Proof.
  intros Hrest. unfold escapeCsvCell. destruct (csv_test v) eqn:Hv.
  - rewrite append_cons, append_assoc, append_cons, append_empty_l.
    rewrite <- read_quoted by done. reflexivity.
  - by apply read_plain.
Qed.

Lemma read_row v row rest R :
  (rest = EmptyString \/ exists r, rest = String cr (String lf r)) ->
  read at_start rest = (EmptyString, [], R) ->
  read at_start (join "," (escapeCsvCell <$> v :: row) +:+ rest) = (v, row, R).
Proof.
  intros Hrest HR. revert v. induction row as [|v' row IH]; intros v.
  - cbn [fmap list_fmap join]. rewrite read_cell.
    + rewrite HR. cbn [push_string]. by rewrite append_empty_r.
    + destruct Hrest as [->|[r ->]]; [by left|right; right; by exists r].
  - change (join "," (escapeCsvCell <$> v :: v' :: row))
      with (escapeCsvCell v +:+ "," +:+ join "," (escapeCsvCell <$> v' :: row)).
    rewrite !append_assoc.
    change ("," +:+ ?x) with (String comma x).
    rewrite read_cell by (right; left; by eexists).
    cbn [read]. change (Ascii.eqb comma comma) with true. cbn match.
    rewrite IH. cbn [new_field push_string]. by rewrite append_empty_r.
Qed.

Lemma read_rows v row rows :
  Forall (fun r => r <> []) rows ->
  read at_start
    (join crlf ((fun r => join "," (escapeCsvCell <$> r)) <$> (v :: row) :: rows))
  = (v, row, rows).
Proof.
  intros Hrows. revert v row.
  induction Hrows as [|r rows Hr _ IH]; intros v row.
  - change (read at_start (join "," (escapeCsvCell <$> v :: row)) = (v, row, [])).
    rewrite <- (append_empty_r (join "," (escapeCsvCell <$> v :: row))).
    apply read_row; [by left|done].
  - destruct r as [|v' row']; [done|].
    change (join crlf ((fun r => join "," (escapeCsvCell <$> r))
                         <$> (v :: row) :: (v' :: row') :: rows))
      with (join "," (escapeCsvCell <$> v :: row) +:+ crlf
            +:+ join crlf ((fun r => join "," (escapeCsvCell <$> r))
                             <$> (v' :: row') :: rows)).
    change (crlf +:+ ?x) with (String cr (String lf x)).
    apply read_row; [right; by eexists|].
    cbn [read]. change (Ascii.eqb cr comma) with false.
    change (Ascii.eqb cr cr) with true. cbn match.
    change (Ascii.eqb lf comma) with false.
    change (Ascii.eqb lf cr) with false.
    change (Ascii.eqb lf lf) with true. cbn match.
    by rewrite IH.
Qed.

Lemma csv_rows_five_fields p : Forall (fun r => length r = 5) (csv_rows p).
Proof.
  rewrite csv_rows_by_table. apply Forall_cons. split; [done|].
  apply Forall_app. split.
  - apply Forall_forall. intros r Hr.
    apply list_elem_of_bind in Hr as (t & Hr & _).
    unfold table_rows in Hr. apply elem_of_lookup_imap in Hr as (i & c & -> & _).
    done.
  - apply Forall_fmap, Forall_forall. by intros g _.
Qed.



(** X19: every row of the CSV has 5 fields, and a reader of comma-separated
    text gets back exactly the rows from the exported text, whatever the
    names contain. *)
Theorem exportToCsv_reads_back p :
  Forall (fun r => length r = 5) (csv_rows p)
  /\ read_csv (exportToCsv p) = csv_rows p.
Proof.
  split; [apply csv_rows_five_fields|].
  pose proof (csv_rows_five_fields p) as H5.
  unfold exportToCsv, read_csv.
  destruct (csv_rows p) as [|[|v row] rows] eqn:Hrows.
  - by rewrite csv_rows_by_table in Hrows.
  - by apply Forall_cons_1 in H5 as [? _].
  - apply Forall_cons_1 in H5 as [_ H5].
    rewrite read_rows; [done|].
    eapply Forall_impl; [exact H5|]. by intros [|].
Qed.


Lemma resolve_guest_spec (gs : list Guest) (c : Chair) :
  match resolve_guest gs c with
  | Some g => g ∈ gs /\ chair_ref c = Some (guest_id g)
  | None => forall g, g ∈ gs -> chair_ref c <> Some (guest_id g)
  end.
Proof.
  unfold resolve_guest, chair_ref.
  destruct (truthy (chair_guestId c)) eqn:Ht; [|done].
  destruct (list_find _ gs) as [[i g]|] eqn:Hfind; cbn.
  - apply list_find_Some in Hfind as (Hi & Hid & _).
    split; [by eapply list_elem_of_lookup_2|done].
  - intros g Hg Hc. eapply list_find_None in Hfind.
    rewrite Forall_forall in Hfind. by apply (Hfind g Hg).
Qed.

Lemma imap_numbering {A} (l : list A) k :
  imap (fun n _ => n + k) l = seq k (length l).
Proof.
  revert k. induction l as [|x l IH]; intros k; [done|].
  cbn [imap length seq]. f_equal. rewrite <- IH.
  apply imap_ext. intros i y _. cbn. lia.
Qed.

Lemma Forall2_imap_r {A B} (P : A -> B -> Prop) (f : nat -> A -> B) (l : list A) :
  (forall i x, l !! i = Some x -> P x (f i x)) -> Forall2 P l (imap f l).
Proof.
  revert f. induction l as [|x l IH]; intros f Hf; [constructor|].
  cbn [imap]. constructor; [by apply (Hf 0)|].
  apply IH. intros i y Hy. by apply (Hf (S i)).
Qed.

(** X20: the seating summary has one entry per table, in ascending order of
    number, and one seat per chair, numbered from 1 in chair order; the guest
    shown on a seat is a guest of the list whose id is the one the chair
    holds, and a chair that holds no id, an empty id, or an id that no guest
    of the list has, shows no guest. *)
Theorem guestsByTable_seats (p : Plan) :
  Forall2 (fun t tb =>
             ts_tableId tb = table_id t
             /\ ts_tableNumber tb = table_number t
             /\ seat_seatNumber <$> ts_seats tb = seq 1 (length (table_chairs t))
             /\ Forall2 (fun c s =>
                           seat_chairId s = chair_id c
                           /\ match seat_guest s with
                              | Some g => g ∈ guests p
                                          /\ chair_ref c = Some (guest_id g)
                              | None => forall g, g ∈ guests p ->
                                                  chair_ref c <> Some (guest_id g)
                              end)
                  (table_chairs t) (ts_seats tb))
          (sort_by_number (tables p)) (guestsByTable p)
  /\ Sorted by_number (sort_by_number (tables p))
  /\ sort_by_number (tables p) ≡ₚ tables p.
Proof.
  split_and!; [|apply Sorted_sort_by_number|apply sort_by_number_Permutation].
  unfold guestsByTable. apply Forall2_fmap_r, Forall_Forall2_diag, Forall_forall.
  intros t _. cbn. split_and!; try done.
  - rewrite fmap_imap. unfold compose. cbn. apply imap_numbering.
  - apply Forall2_imap_r. intros i c _. cbn. split; [done|].
    apply resolve_guest_spec.
Qed.




(** ** Versions, again *)

(** *** On the device *)

Lemma loadLocalVersion_cons calc id v vs :
  loadLocalVersion calc id (v :: vs)
  = if decide (sv_id v = id)
    then Some ({| guests := sv_guests v; tables := sv_tables v |},
               default (calc (sv_tables v)) (sv_stageSize v),
               default (0%R, 0%R) (sv_pan v))
    else loadLocalVersion calc id vs.
Proof.
  unfold loadLocalVersion. cbn [list_find].
  destruct (decide (sv_id v = id)); [done|].
  by destruct (list_find _ vs) as [[i w]|].
Qed.

(** X22: the list of versions kept on the device holds at most 20 versions,
    the one just saved first; loading it gives back the plan, stage size and
    pan that were saved, and any other id loads what it loaded among the 19
    most recent versions before: the twentieth and older ones are dropped. *)
Theorem saveLocalVersion_keeps_newest_20 calc id savedAt name p stageSize pan prev :
  let vs := saveLocalVersion id savedAt name p stageSize pan prev in
  length vs = min 20 (S (length prev))
  /\ sv_id <$> vs = id :: take 19 (sv_id <$> prev)
  /\ loadLocalVersion calc id vs = Some (p, stageSize, pan)
  /\ (forall id', id' <> id ->
        loadLocalVersion calc id' vs = loadLocalVersion calc id' (take 19 prev)).
Proof.
  cbn zeta. unfold saveLocalVersion. cbn zeta.
  change (take 20 (?v :: prev)) with (v :: take 19 prev).
  split_and!.
  - cbn [length]. rewrite length_take. lia.
  - by rewrite fmap_cons, fmap_take.
  - rewrite loadLocalVersion_cons. cbn. rewrite decide_True by done.
    by destruct p.
  - intros id' Hid. rewrite loadLocalVersion_cons. cbn.
    by rewrite decide_False.
Qed.

(** X23: a version deleted on the device can no longer be loaded, and every
    other id loads what it loaded before. *)
Theorem deleteLocalVersion_forgets_only_that_version calc id vs :
  loadLocalVersion calc id (deleteLocalVersion id vs) = None
  /\ (forall id', id' <> id ->
        loadLocalVersion calc id' (deleteLocalVersion id vs)
        = loadLocalVersion calc id' vs).
Proof.
  unfold deleteLocalVersion. split.
  - induction vs as [|v vs IH]; [done|].
    rewrite filter_cons. destruct (decide (sv_id v <> id)) as [Hv|Hv]; [|done].
    rewrite loadLocalVersion_cons. by rewrite decide_False.
  - intros id' Hid. induction vs as [|v vs IH]; [done|].
    rewrite filter_cons. destruct (decide (sv_id v <> id)) as [Hv|Hv].
    + rewrite !loadLocalVersion_cons. by rewrite IH.
    + rewrite IH, (loadLocalVersion_cons _ _ v).
      apply dec_stable in Hv. rewrite decide_False; [done|]. congruence.
Qed.

(** *** On the server *)

Section ServerAgain.

Variable trim : string -> string.

Lemma version_name_not_empty name : Server.version_name trim name <> EmptyString.
Proof.
  unfold Server.version_name.
  destruct name as [[| | |s| |]|]; try done.
  by case_bool_decide.
Qed.

(** X24: a save request is refused with 400 exactly when [guests] or
    [tables] of the body is not an array, fails with 500 only on an error of
    the file system, and in both cases leaves every file as it is; a save
    that succeeds writes the one file named by the new id, and the name it
    records is never empty. *)
Theorem post_versions_outcomes env body fs :
  let r := Server.post_versions trim env body fs in
  (Server.status r.1 = 400
   <-> ~ exists gs ts, Server.field "guests" body = Some (Server.JArr gs)
                       /\ Server.field "tables" body = Some (Server.JArr ts))
  /\ (Server.status r.1 = 500 -> Server.env_fs_error env <> None)
  /\ (Server.status r.1 = 201 \/ r.2 = fs)
  /\ (forall id, id <> Server.env_uuid env -> r.2 !! id = fs !! id)
  /\ (forall meta, r.1 = Server.Created meta ->
        exists name,
          name <> EmptyString
          /\ meta = Server.meta_json (Server.env_uuid env) name (Server.env_now env)
          /\ Server.field "name" (r.2 !! Server.env_uuid env)
             = Some (Server.JStr name)).
Proof.
  cbn zeta. unfold Server.post_versions, Server.saveVersion.
  destruct (Server.field "guests" body) as [[| | | |gs|]|] eqn:Hg;
    try (cbn; split_and!;
         [split; [intros _ (? & ? & ? & _); congruence|done]
         |done|by right|done|done]).
  destruct (Server.field "tables" body) as [[| | | |ts|]|] eqn:Ht;
    try (cbn; split_and!;
         [split; [intros _ (? & ? & _ & ?); congruence|done]
         |done|by right|done|done]).
  destruct (Server.env_fs_error env) as [msg|] eqn:Hfs; cbn.
  - split_and!; try done.
    + split; [done|]. intros []. by eexists _, _.
    + by right.
  - split_and!; try done.
    + split; [done|]. intros []. by eexists _, _.
    + by left.
    + intros id Hid. by rewrite lookup_insert_ne.
    + intros meta [= <-]. eexists. split; [apply version_name_not_empty|].
      split; [reflexivity|]. by rewrite lookup_insert_eq.
Qed.

End ServerAgain.

Lemma isValidId_chars id :
  Server.isValidId id = true
  <-> String.length id = 36
      /\ forall a, a ∈ String.list_ascii_of_string id -> Server.is_id_char a = true.
Proof.
  unfold Server.isValidId. rewrite andb_true_iff, Nat.eqb_eq, forallb_forall.
  split; intros [Hl Hc]; (split; [done|]); intros a Ha; apply Hc.
  - by apply list_elem_of_In.
  - by apply list_elem_of_In.
Qed.

(** X25: an id that is not 36 characters long or has a character other than
    a hexadecimal digit or a hyphen, such as a dot (code 46) or a slash
    (code 47), reaches no file: reading it answers 404 and deleting it answers 404 and leaves every
    file as it is. *)
Theorem malformed_id_reaches_no_file id fs
    (Hbad : String.length id <> 36
            \/ exists a, a ∈ String.list_ascii_of_string id
                         /\ Server.is_id_char a = false) :
  Server.get_version id fs = Server.NotFound "Version not found"
  /\ delete_version id fs = (404, fs)
  /\ Server.is_id_char (Ascii.ascii_of_nat 46) = false
  /\ Server.is_id_char (Ascii.ascii_of_nat 47) = false.
Proof.
  assert (Server.isValidId id = false) as Hid.
  { apply not_true_is_false. intros [Hl Hc]%isValidId_chars.
    destruct Hbad as [Hbad|(a & Ha & Hbad)]; [done|].
    rewrite (Hc a Ha) in Hbad. done. }
  unfold Server.get_version, Server.getVersion, delete_version, deleteVersion.
  rewrite Hid. done.
Qed.

Lemma malformed_id_reaches_no_file_witness :
  delete_version "../../etc/passwd" {[ Server.env_uuid sample_env := Server.JNull ]}
  = (404, {[ Server.env_uuid sample_env := Server.JNull ]}).
Proof.
  refine (proj1 (proj2 (malformed_id_reaches_no_file "../../etc/passwd" _ _))).
  left. vm_compute. lia.
Defined.

(** X26: deleting a version answers 204 exactly when the id is well formed
    and names a file; the version can then no longer be read, and every other
    id reads as before; when it answers 404 every file is as it was. *)
Theorem delete_version_outcomes id fs :
  let r := delete_version id fs in
  (r.1 = 204 \/ r.1 = 404)
  /\ (r.1 = 204 <-> Server.isValidId id = true /\ is_Some (fs !! id))
  /\ (r.1 = 404 -> r.2 = fs)
  /\ Server.get_version id r.2 = Server.NotFound "Version not found"
  /\ (forall id', id' <> id ->
        Server.get_version id' r.2 = Server.get_version id' fs).
Proof.
  cbn zeta. unfold delete_version, deleteVersion, Server.get_version, Server.getVersion.
  destruct (Server.isValidId id) eqn:Hid; cbn.
  - destruct (fs !! id) as [v|] eqn:Hv; cbn.
    + split; [by left|]. split; [split; [by eauto|done]|].
      split; [done|]. split.
      * by rewrite lookup_delete_eq.
      * intros id' Hne. by rewrite lookup_delete_ne.
    + split; [by right|]. split; [split; [done|by intros [_ [? ?]]]|].
      split; [done|]. split; [by rewrite Hv|done].
  - split; [by right|]. split; [split; [done|by intros [? _]]|].
    split; [done|]. split; done.
Qed.

(** X27: saving a version and then deleting it under the id the save
    returned leaves the files as they were before the save, provided the id
    is well formed and was not in use. *)
Theorem save_then_delete_restores_files (trim : string -> string) env body fs gs ts
    (Hg : Server.field "guests" body = Some (Server.JArr gs))
    (Ht : Server.field "tables" body = Some (Server.JArr ts))
    (Hfs : Server.env_fs_error env = None)
    (Hid : Server.isValidId (Server.env_uuid env) = true)
    (Hfresh : fs !! Server.env_uuid env = None) :
  let r := Server.post_versions trim env body fs in
  Server.status r.1 = 201
  /\ Server.field "id" (match r.1 with Server.Created meta => Some meta | _ => None end)
     = Some (Server.JStr (Server.env_uuid env))
  /\ delete_version (Server.env_uuid env) r.2 = (204, fs).
Proof.
  cbn zeta. unfold Server.post_versions, Server.saveVersion.
  rewrite Hg, Ht, Hfs. cbn. split_and!; try done.
  unfold delete_version, deleteVersion. rewrite Hid. cbn.
  rewrite lookup_insert_eq. cbn. by rewrite delete_insert_id.
Qed.

Lemma save_then_delete_restores_files_witness :
  delete_version (Server.env_uuid sample_env)
    (Server.post_versions (fun s => s) sample_env (Some sample_body) ∅).2
  = (204, ∅).
Proof.
  refine (proj2 (proj2 (save_then_delete_restores_files (fun s => s) sample_env
                          (Some sample_body) ∅ _ _ eq_refl eq_refl eq_refl _ _))).
  - vm_compute. reflexivity.
  - apply lookup_empty.
Defined.

(** ** The size of the stage *)

Section StageSizeFacts.
Local Open Scope R_scope.

Variable innerWidth : R.

Lemma foldl_Rmin_bound {A} (f : A -> R) (a : R) (l : list A) :
  foldl (fun m t => Rmin m (f t)) a l <= a
  /\ forall t, t ∈ l -> foldl (fun m t => Rmin m (f t)) a l <= f t.
Proof.
  revert a. induction l as [|x l IH]; intros a; cbn [foldl].
  - split; [lra|]. intros t Ht. by apply elem_of_nil in Ht.
  - destruct (IH (Rmin a (f x))) as [Ha Hl].
    pose proof (Rmin_l a (f x)). pose proof (Rmin_r a (f x)).
    split; [lra|]. intros t [->|Ht]%elem_of_cons; [lra|by apply Hl].
Qed.

Lemma foldl_Rmax_bound {A} (f : A -> R) (a : R) (l : list A) :
  a <= foldl (fun m t => Rmax m (f t)) a l
  /\ forall t, t ∈ l -> f t <= foldl (fun m t => Rmax m (f t)) a l.
Proof.
  revert a. induction l as [|x l IH]; intros a; cbn [foldl].
  - split; [lra|]. intros t Ht. by apply elem_of_nil in Ht.
  - destruct (IH (Rmax a (f x))) as [Ha Hl].
    pose proof (Rmax_l a (f x)). pose proof (Rmax_r a (f x)).
    split; [lra|]. intros t [->|Ht]%elem_of_cons; [lra|by apply Hl].
Qed.

Lemma foldl_Rmin_shift {A} (f : A -> R) (g : A -> A) d a l :
  (forall t, f (g t) = f t + d) ->
  foldl (fun m t => Rmin m (f t)) (a + d) (g <$> l)
  = foldl (fun m t => Rmin m (f t)) a l + d.
Proof.
  intros Hf. revert a. induction l as [|x l IH]; intros a; [done|].
  cbn [fmap list_fmap foldl]. rewrite Hf.
  replace (Rmin (a + d) (f x + d)) with (Rmin a (f x) + d); [apply IH|].
  unfold Rmin. destruct (Rle_dec a (f x)), (Rle_dec (a + d) (f x + d)); lra.
Qed.

Lemma foldl_Rmax_shift {A} (f : A -> R) (g : A -> A) d a l :
  (forall t, f (g t) = f t + d) ->
  foldl (fun m t => Rmax m (f t)) (a + d) (g <$> l)
  = foldl (fun m t => Rmax m (f t)) a l + d.
Proof.
  intros Hf. revert a. induction l as [|x l IH]; intros a; [done|].
  cbn [fmap list_fmap foldl]. rewrite Hf.
  replace (Rmax (a + d) (f x + d)) with (Rmax a (f x) + d); [apply IH|].
  unfold Rmax. destruct (Rle_dec a (f x)), (Rle_dec (a + d) (f x + d)); lra.
Qed.

(** X28: the stage computed for a list of tables is wide and high enough for
    the span between any two of them plus the padding on both sides (200, or
    100 on a narrow window), and is never smaller than 800 by 600 on a wide
    window nor lower than 500 on a narrow one. *)
Theorem calculateStageSize_spans_tables (ts : list TableModel) (t t' : TableModel)
    (Ht : t ∈ ts) (Ht' : t' ∈ ts) :
  let size := calculateStageSize innerWidth ts in
  let padding := if isMobile innerWidth then 100 else 200 in
  (table_x t + halfW t) - (table_x t' - halfW t') + padding * 2 <= size.1
  /\ (table_y t + halfH t) - (table_y t' - halfH t') + padding * 2 <= size.2
  /\ (isMobile innerWidth = false -> 800 <= size.1 /\ 600 <= size.2)
  /\ (isMobile innerWidth = true -> 500 <= size.2).
Proof.
  cbn zeta. unfold calculateStageSize.
  destruct ts as [|t0 rest]; [by apply elem_of_nil in Ht|].
  set (minX := foldl _ (table_x t0 - halfW t0) rest).
  set (minY := foldl _ (table_y t0 - halfH t0) rest).
  set (maxX := foldl _ (table_x t0 + halfW t0) rest).
  set (maxY := foldl _ (table_y t0 + halfH t0) rest).
  assert (forall u, u ∈ t0 :: rest ->
            minX <= table_x u - halfW u /\ minY <= table_y u - halfH u
            /\ table_x u + halfW u <= maxX /\ table_y u + halfH u <= maxY) as Hb.
  { intros u Hu.
    destruct (foldl_Rmin_bound (fun t => table_x t - halfW t)
                (table_x t0 - halfW t0) rest) as [H1 H1'].
    destruct (foldl_Rmin_bound (fun t => table_y t - halfH t)
                (table_y t0 - halfH t0) rest) as [H2 H2'].
    destruct (foldl_Rmax_bound (fun t => table_x t + halfW t)
                (table_x t0 + halfW t0) rest) as [H3 H3'].
    destruct (foldl_Rmax_bound (fun t => table_y t + halfH t)
                (table_y t0 + halfH t0) rest) as [H4 H4'].
    apply elem_of_cons in Hu as [->|Hu]; [done|].
    split_and!; [by apply H1'|by apply H2'|by apply H3'|by apply H4']. }
  destruct (Hb t Ht) as (_ & _ & Hx & Hy).
  destruct (Hb t' Ht') as (Hx' & Hy' & _ & _).
  destruct (isMobile innerWidth); cbn [fst snd].
  - pose proof (Rmax_r (Rmin 800 (innerWidth - 32)) (maxX - minX + 100 * 2)).
    pose proof (Rmax_r 500 (maxY - minY + 100 * 2)).
    pose proof (Rmax_l 500 (maxY - minY + 100 * 2)).
    split_and!; [lra|lra|done|lra].
  - pose proof (Rmax_r 800 (maxX - minX + 200 * 2)).
    pose proof (Rmax_l 800 (maxX - minX + 200 * 2)).
    pose proof (Rmax_r 600 (maxY - minY + 200 * 2)).
    pose proof (Rmax_l 600 (maxY - minY + 200 * 2)).
    split_and!; [lra|lra|intros _; split; lra|done].
Qed.

(** X29: the size of the stage depends on the spread of the tables only:
    moving every table by the same offset leaves it as it is. *)
Theorem calculateStageSize_ignores_common_offset (ts : list TableModel) dx dy :
  calculateStageSize innerWidth (moved dx dy <$> ts)
  = calculateStageSize innerWidth ts.
Proof.
  unfold calculateStageSize. destruct ts as [|t0 rest]; [done|].
  rewrite fmap_cons.
  change (table_x (moved dx dy t0)) with (table_x t0 + dx).
  change (table_y (moved dx dy t0)) with (table_y t0 + dy).
  change (halfW (moved dx dy t0)) with (halfW t0).
  change (halfH (moved dx dy t0)) with (halfH t0).
  replace (table_x t0 + dx - halfW t0) with (table_x t0 - halfW t0 + dx) by ring.
  replace (table_y t0 + dy - halfH t0) with (table_y t0 - halfH t0 + dy) by ring.
  replace (table_x t0 + dx + halfW t0) with (table_x t0 + halfW t0 + dx) by ring.
  replace (table_y t0 + dy + halfH t0) with (table_y t0 + halfH t0 + dy) by ring.
  rewrite (foldl_Rmin_shift (fun t => table_x t - halfW t) (moved dx dy))
    by (intros u; change (table_x u + dx - halfW u = table_x u - halfW u + dx); ring).
  rewrite (foldl_Rmin_shift (fun t => table_y t - halfH t) (moved dx dy))
    by (intros u; change (table_y u + dy - halfH u = table_y u - halfH u + dy); ring).
  rewrite (foldl_Rmax_shift (fun t => table_x t + halfW t) (moved dx dy))
    by (intros u; change (table_x u + dx + halfW u = table_x u + halfW u + dx); ring).
  rewrite (foldl_Rmax_shift (fun t => table_y t + halfH t) (moved dx dy))
    by (intros u; change (table_y u + dy + halfH u = table_y u + halfH u + dy); ring).
  set (minX := foldl _ (table_x t0 - halfW t0) rest).
  set (minY := foldl _ (table_y t0 - halfH t0) rest).
  set (maxX := foldl _ (table_x t0 + halfW t0) rest).
  set (maxY := foldl _ (table_y t0 + halfH t0) rest).
  replace (maxX + dx - (minX + dx)) with (maxX - minX) by ring.
  replace (maxY + dy - (minY + dy)) with (maxY - minY) by ring.
  done.
Qed.

(** The stage of the first page is the one computed for the initial tables
    on a window at least 768 wide. *)
Lemma defaultPage_stageSize :
  768 <= innerWidth ->
  calculateStageSize innerWidth defaultTables = pg_stageSize defaultPage.
Proof.
  intros Hwide. unfold calculateStageSize, isMobile, defaultTables.
  rewrite bool_decide_eq_false_2 by lra.
  cbn [foldl table_x table_y defaultTable1 defaultTable2 defaultTable3
       halfW halfH table_shape tableSize fst snd pg_stageSize defaultPage].
  change (halfW defaultTable1) with (98 / 2).
  change (halfW defaultTable2) with (98 / 2).
  change (halfW defaultTable3) with (126 / 2).
  change (halfH defaultTable1) with (98 / 2).
  change (halfH defaultTable2) with (98 / 2).
  change (halfH defaultTable3) with (74 / 2).
  unfold Rmin, Rmax.
  repeat (destruct (Rle_dec _ _); try lra); f_equal; lra.
Qed.

End StageSizeFacts.

Lemma calculateStageSize_spans_tables_witness :
  (800 <= (calculateStageSize 1280 defaultTables).1)%R.
Proof.
  assert (defaultTable1 ∈ defaultTables) as Ht by left.
  refine (proj1 (proj1 (proj2 (proj2
            (calculateStageSize_spans_tables 1280 defaultTables
               defaultTable1 defaultTable1 Ht Ht))) _)).
  unfold isMobile. apply bool_decide_eq_false_2. lra.
Defined.
